(** * Lighthouse audits: time-to-interactive and cache-start-url

    A shallow embedding of [lighthouse-core/audits/time-to-interactive.js]
    and [lighthouse-core/audits/cache-start-url.js], with the properties of
    the quiescence-window search and of the cache lookup stated over it.

    Conventions of the embedding:
    - timestamps, durations and progress percentages are integers ([Z],
      milliseconds and percent); percentiles are rationals ([Q]);
    - the program computes on doubles: [TTI] is the program on timestamps of
      magnitude at most [2^52], where its additions are exact, and [Double]
      is the loop with the rounding of doubles, for what happens beyond;
    - the JavaScript number [Infinity], which initialises [currentLatency],
      is a constructor of [Num];
    - [Array.prototype.find] is [List.find]: it yields the first element (in
      array order) satisfying the callback, or nothing ([undefined]);
    - reading a property of [undefined] raises a [TypeError];
    - [Array.prototype.push] appends at the end of the list. *)

From Stdlib Require Import ZArith List Bool QArith Lia String Ascii Sorted.
Import ListNotations.
Open Scope Z_scope.

(** ** time-to-interactive.js *)

Module TTI.

(** JavaScript numbers as the loop uses them: a finite value or [Infinity]. *)
Inductive Num : Type :=
| Infinity : Num
| Fin : Z -> Num.

(** [a > b] for a possibly infinite [a] and a finite [b]. *)
Definition num_gt (a : Num) (b : Z) : bool :=
  match a with
  | Infinity => true
  | Fin z => z >? b
  end.

(** An element of [visualProgress]: [{progress, time}]. *)
Module Frame.
Record t : Type := mk { progress : Z; time : Z }.
End Frame.

(** A Speedline frame, read through [getProgress()] and [getTimeStamp()]. *)
Module SpeedlineFrame.
Record t : Type := mk { getProgress : Z; getTimeStamp : Z }.
End SpeedlineFrame.

(** An element of the estimator's answer: [{percentile, time}]. *)
Module Latency.
Record t : Type := mk { percentile : Q; time : Z }.
End Latency.

(** An element of [foundLatencies]:
    [Object.assign({}, estLatency, {startTime})].  When [estLatency] is
    [undefined] the object only has [startTime]. *)
Module Sample.
Record t : Type := mk { estLatency : option Latency.t; startTime : Z }.
End Sample.

(** The part of [FMPMetric.audit]'s result that the audit reads. *)
Module FMP.
Record Timings : Type := mkTimings { fMPfull : Z; navStart : Z }.
Record ExtendedInfo : Type := mkExtendedInfo { timings : Timings }.
Record Result : Type := mkResult { rawValue : Z; extendedInfo : ExtendedInfo }.
End FMP.

(** The audit result built by [generateAuditResult]. *)
Module Result.
Record Timings : Type := mkTimings {
  fMP : Z;
  visuallyReady : Z;
  mainThreadAvail : Z
}.

Record ExtendedInfo : Type := mkExtendedInfo {
  timings : Timings;
  expectedLatencyAtTTI : Num;
  foundLatencies : list Sample.t
}.

Record t : Type := mk {
  value : Z;
  rawValue : Z;
  optimalValue : string;
  extendedInfo : ExtendedInfo
}.
End Result.

(** What the [then] callback of [audit] does: it throws (the promise is
    rejected), it returns nothing ([return;]), or it returns a result. *)
Inductive Outcome : Type :=
| TypeError : Outcome
| Undefined : Outcome
| Returned : Result.t -> Outcome.

Definition percentile : Q := 9 # 10.
Definition threshold : Z := 50.
Definition optimalValue_meta : string := "TBD".

(** The variables of the [while] loop.  [queried] and [iterations] are not
    variables of the program: [queried] logs the windows handed to
    [getRiskToResponsiveness], in call order, and [iterations] counts the
    executions of the loop body. *)
Record Loop : Type := mkLoop {
  startTime : Z;
  currentLatency : Num;
  foundLatencies : list Sample.t;
  queried : list (Z * Z);
  iterations : nat
}.

(** How one execution of the loop body ends. *)
Inductive Flow : Type :=
| Next : Loop -> Flow
| Return : Loop -> Flow
| Throw : Loop -> Flow.

(** How the loop ends: its condition became false ([Done]), the body
    executed [return;] ([Exhausted]) or it threw ([Thrown]). *)
Inductive Exit : Type :=
| Done : Loop -> Exit
| Exhausted : Loop -> Exit
| Thrown : Loop -> Exit.

Definition exit_state (e : Exit) : Loop :=
  match e with
  | Done s | Exhausted s | Thrown s => s
  end.

Definition visually_ready (fMPts : Z) (frame : Frame.t) : bool :=
  (Frame.time frame >=? fMPts) && (Frame.progress frame >=? 85).

Definition at_percentile (res : Latency.t) : bool :=
  Qeq_bool (Latency.percentile res) percentile.

(** [artifacts.Speedline.frames.map(...)]. *)
Definition visualProgress (frames : list SpeedlineFrame.t) : list Frame.t :=
  map (fun frame => Frame.mk (SpeedlineFrame.getProgress frame)
                             (SpeedlineFrame.getTimeStamp frame)) frames.

(** [visualProgress.find(frame => frame.time >= fMPts &&
    frame.progress >= 85)]: the visual-readiness lookup. *)
Definition visuallyReady (samples : list Frame.t) (fMPts : Z)
  : option Frame.t :=
  find (visually_ready fMPts) samples.

Definition fMPts (fmpResult : FMP.Result) : Z :=
  FMP.fMPfull (FMP.timings (FMP.extendedInfo fmpResult))
  + FMP.navStart (FMP.timings (FMP.extendedInfo fmpResult)).

(** A recorded sample whose estimate keeps the loop going. *)
Definition above_threshold (sample : Sample.t) : Prop :=
  exists est,
    Sample.estLatency sample = Some est /\ Latency.time est > threshold.

(** The start times of [n] consecutive windows of a loop entered with
    [startTime = startTime0]. *)
Definition window_starts (startTime0 : Z) (n : nat) : list Z :=
  map (fun k => startTime0 + 50 * Z.of_nat (S k)) (seq 0 n).

(** Each element of [l] is its predecessor plus [d]. *)
Fixpoint stepwise (d : Z) (l : list Z) : Prop :=
  match l with
  | a :: (b :: _) as rest => b = a + d /\ stepwise d rest
  | _ => True
  end.

(** The ceiling of [a / b], for [b > 0]. *)
Definition ceil_div (a b : Z) : Z := - ((- a) / b).

Section Audit.

(** [model.bounds.max] and [TracingProcessor.getRiskToResponsiveness(model,
    artifacts.traceContents, startTime, endTime)] for the trace at hand. *)
Variable endOfTraceTime : Z.
Variable getRiskToResponsiveness : Z -> Z -> list Latency.t.

(** The body of [while (currentLatency > threshold) { ... }]. *)
Definition body (s : Loop) : Flow :=
  let startTime' := startTime s + 50 in
  let endTime := startTime' + 500 in
  if endTime >? endOfTraceTime then
    Return (mkLoop startTime' (currentLatency s) (foundLatencies s)
                   (queried s) (S (iterations s)))
  else
    let latencies := getRiskToResponsiveness startTime' endTime in
    let estLatency := find at_percentile latencies in
    let found := foundLatencies s ++ [Sample.mk estLatency startTime'] in
    let log := queried s ++ [(startTime', endTime)] in
    match estLatency with
    | None =>
        Throw (mkLoop startTime' (currentLatency s) found log
                      (S (iterations s)))
    | Some est =>
        Next (mkLoop startTime' (Fin (Latency.time est)) found log
                     (S (iterations s)))
    end.

Definition continue (s : Loop) : bool := num_gt (currentLatency s) threshold.

Fixpoint while (fuel : nat) (s : Loop) : option Exit :=
  if continue s then
    match fuel with
    | O => None
    | S fuel' =>
        match body s with
        | Next s' => while fuel' s'
        | Return s' => Some (Exhausted s')
        | Throw s' => Some (Thrown s')
        end
    end
  else Some (Done s).

(** The loop with its variables as initialised before it. *)
Definition init (startTime0 : Z) : Loop :=
  mkLoop startTime0 Infinity [] [] 0.

(** Executions of the body still possible from a loop head: each one moves
    [startTime] 50ms closer to the last window that fits the trace. *)
Definition remaining (s : Loop) : nat :=
  S (Z.to_nat ((endOfTraceTime - startTime s - 500) / 50)).

Definition fuel_for (startTime0 : Z) : nat := remaining (init startTime0).

Definition search (startTime0 : Z) : option Exit :=
  while (fuel_for startTime0) (init startTime0).

(** The sample the body records for the window [w]. *)
Definition sample_of (w : Z * Z) : Sample.t :=
  Sample.mk (find at_percentile (getRiskToResponsiveness (fst w) (snd w)))
            (fst w).

(** What follows the loop, with the log of estimator calls next to the
    outcome: [return;] leaves the callback with [undefined], a throw rejects
    the promise, and a loop that ran to its end builds the audit result. *)
Definition finish (fmpTiming visuallyReadyTiming : Z) (e : Exit)
  : Outcome * list (Z * Z) :=
  match e with
  | Exhausted s => (Undefined, queried s)
  | Thrown s => (TypeError, queried s)
  | Done s =>
      let extendedInfo :=
        Result.mkExtendedInfo
          (Result.mkTimings fmpTiming visuallyReadyTiming (startTime s))
          (currentLatency s)
          (foundLatencies s) in
      (Returned (Result.mk (startTime s) (startTime s)
                           optimalValue_meta extendedInfo),
       queried s)
  end.

(** The callback of [FMPMetric.audit(artifacts).then(...)].  [None]: the
    loop ran out of fuel (shown impossible below). *)
Definition audit_run (fmpResult : FMP.Result) (frames : list SpeedlineFrame.t)
  : option (Outcome * list (Z * Z)) :=
  let fmpTiming := FMP.rawValue fmpResult in
  let timings := FMP.timings (FMP.extendedInfo fmpResult) in
  match visuallyReady (visualProgress frames) (fMPts fmpResult) with
  | None => Some (TypeError, [])
  | Some ready =>
      let visuallyReadyTiming := Frame.time ready - FMP.navStart timings in
      option_map (finish fmpTiming visuallyReadyTiming)
                 (search (Z.max fmpTiming visuallyReadyTiming - 50))
  end.

Definition audit (fmpResult : FMP.Result) (frames : list SpeedlineFrame.t)
  : option Outcome :=
  option_map fst (audit_run fmpResult frames).

(** The windows handed to the estimator, and the samples recorded for them,
    at a loop head reached from [init startTime0]. *)
Definition windows_inv (startTime0 : Z) (s : Loop) : Prop :=
  startTime s = startTime0 + 50 * Z.of_nat (iterations s) /\
  List.length (queried s) = iterations s /\
  map fst (queried s) = window_starts startTime0 (List.length (queried s)) /\
  Forall (fun w => snd w = fst w + 500 /\ snd w <= endOfTraceTime)
         (queried s) /\
  foundLatencies s = map sample_of (queried s).

(** The same at an exit, where the last execution of the body may have
    stopped at the bounds check. *)
Definition windows_post (startTime0 : Z) (e : Exit) : Prop :=
  let s := exit_state e in
  map fst (queried s) = window_starts startTime0 (List.length (queried s)) /\
  Forall (fun w => snd w = fst w + 500 /\ snd w <= endOfTraceTime)
         (queried s) /\
  foundLatencies s = map sample_of (queried s).

(** The trail at a loop head: empty before the first window, and afterwards
    ending with the sample of the window the loop stands at, whose estimate
    is [currentLatency], every earlier sample being above the threshold. *)
Definition trail_inv (s : Loop) : Prop :=
  (foundLatencies s = [] /\ currentLatency s = Infinity) \/
  exists earlier last est,
    foundLatencies s = earlier ++ [last] /\
    Sample.startTime last = startTime s /\
    Sample.estLatency last = Some est /\
    at_percentile est = true /\
    currentLatency s = Fin (Latency.time est) /\
    Forall above_threshold earlier.

(** Why a loop entered at [startTime0] stopped: on a sample at most the
    threshold, all earlier ones being above it; at the bounds check, on the
    first window that does not fit the trace, every sample being above the
    threshold; or on an answer without an entry at the percentile. *)
Definition stop_reason (startTime0 : Z) (e : Exit) : Prop :=
  match e with
  | Done s =>
      exists earlier last quiet,
        foundLatencies s = earlier ++ [last] /\
        Sample.estLatency last = Some quiet /\
        Latency.time quiet <= threshold /\
        Forall above_threshold earlier
  | Exhausted s =>
      startTime0 + 50 * Z.of_nat (S (List.length (queried s))) + 500
        > endOfTraceTime /\
      Forall above_threshold (foundLatencies s)
  | Thrown s =>
      exists earlier last,
        foundLatencies s = earlier ++ [last] /\
        Sample.estLatency last = None /\
        Forall above_threshold earlier
  end.

End Audit.

(** Observations of a run: the start of the first window handed to the
    estimator, the reported interactive time, and whether the callback
    returned an audit result at all. *)
Definition first_window (run : option (Outcome * list (Z * Z))) : option Z :=
  match run with
  | Some (_, w :: _) => Some (fst w)
  | _ => None
  end.

Definition interactive_time (run : option (Outcome * list (Z * Z)))
  : option Z :=
  match run with
  | Some (Returned r, _) => Some (Result.rawValue r)
  | _ => None
  end.

Definition reports_result (o : Outcome) : bool :=
  match o with
  | Returned _ => true
  | TypeError | Undefined => false
  end.

End TTI.

(** ** The loop on double-precision numbers

    JavaScript numbers are IEEE 754 doubles.  On integer-valued doubles a
    sum is the exact sum rounded to 53 significant bits, to nearest, ties to
    even; up to [2^53] in magnitude nothing is rounded, beyond it
    [startTime += 50] and [startTime + 500] are.  [Double.body] is
    [TTI.body] with that addition; the two agree on timestamps of magnitude
    at most [2^52] (shown below), which is where [TTI] speaks for the
    program.  Fractions, [NaN] and overflow to [Infinity] are not
    represented. *)

Module Double.

(** The exact integer [z] rounded to a double. *)
Definition round (z : Z) : Z :=
  let m := Z.abs z in
  if m <? 2 ^ 53 then z
  else
    let ulp := 2 ^ (Z.log2 m - 52) in
    let q := m / ulp in
    let r := m mod ulp in
    let q' :=
      if 2 * r <? ulp then q
      else if ulp <? 2 * r then q + 1
      else if Z.even q then q else q + 1 in
    Z.sgn z * (q' * ulp).

(** [a + b] on integer-valued doubles. *)
Definition add (a b : Z) : Z := round (a + b).

Section Loop.

Variable endOfTraceTime : Z.
Variable getRiskToResponsiveness : Z -> Z -> list TTI.Latency.t.

(** The body of the loop, as [TTI.body], on doubles. *)
Definition body (s : TTI.Loop) : TTI.Flow :=
  let startTime' := add (TTI.startTime s) 50 in
  let endTime := add startTime' 500 in
  if endTime >? endOfTraceTime then
    TTI.Return (TTI.mkLoop startTime' (TTI.currentLatency s)
                  (TTI.foundLatencies s) (TTI.queried s)
                  (S (TTI.iterations s)))
  else
    let latencies := getRiskToResponsiveness startTime' endTime in
    let estLatency := find TTI.at_percentile latencies in
    let found :=
      TTI.foundLatencies s ++ [TTI.Sample.mk estLatency startTime'] in
    let log := TTI.queried s ++ [(startTime', endTime)] in
    match estLatency with
    | None =>
        TTI.Throw (TTI.mkLoop startTime' (TTI.currentLatency s) found log
                     (S (TTI.iterations s)))
    | Some est =>
        TTI.Next (TTI.mkLoop startTime' (TTI.Fin (TTI.Latency.time est))
                    found log (S (TTI.iterations s)))
    end.

(** [None]: the loop is still running after [fuel] executions of its
    body. *)
Fixpoint while (fuel : nat) (s : TTI.Loop) : option TTI.Exit :=
  if TTI.continue s then
    match fuel with
    | O => None
    | S fuel' =>
        match body s with
        | TTI.Next s' => while fuel' s'
        | TTI.Return s' => Some (TTI.Exhausted s')
        | TTI.Throw s' => Some (TTI.Thrown s')
        end
    end
  else Some (TTI.Done s).

Definition search (startTime0 : Z) : option TTI.Exit :=
  while (TTI.fuel_for endOfTraceTime startTime0) (TTI.init startTime0).

End Loop.

(** Timestamps on which the loop's additions are exact. *)
Definition exact (z : Z) : Prop := - 2 ^ 52 <= z <= 2 ^ 52.

(** An estimator that finds every window busy. *)
Definition always_busy (startTime endTime : Z) : list TTI.Latency.t :=
  [TTI.Latency.mk (9 # 10) 100].

End Double.

(** ** The input-latency estimator *)

Module Estimator.

(** Modelled from the spec: [TracingProcessor.getRiskToResponsiveness]
    (lib/traces/tracing-processor.js is not among the sources).  Section 4.2:
    the main thread has contiguous busy periods; an input landing at an
    instant inside a busy period waits until that period ends, an input
    landing in an idle gap waits 0; the estimate at a percentile is taken
    over the instants of the window, sampled at a fixed resolution.  A busy
    period is [(start, end)]; the window is sampled every 10ms. *)
Definition latency_at (busy : list (Z * Z)) (t : Z) : Z :=
  fold_right
    (fun p acc =>
       if (fst p <=? t) && (t <? snd p) then Z.max (snd p - t) acc else acc)
    0 busy.

(** Modelled from the spec: the fixed sampling resolution of section 4.2,
    taken to be 10ms. *)
Definition resolution : Z := 10.

(** Modelled from the spec: the instants of the window at which an input is
    taken to land. *)
Definition instants (startTime endTime : Z) : list Z :=
  map (fun k => startTime + resolution * Z.of_nat k)
      (seq 0 (Z.to_nat ((endTime - startTime) / resolution))).

(** Modelled from the spec: how many values of [l] are at most [v]. *)
Definition count_le (v : Z) (l : list Z) : nat :=
  List.length (filter (fun x => x <=? v) l).

(** Modelled from the spec: at least the fraction [p] of the values of [l]
    is at most [v]. *)
Definition reaches (p : Q) (l : list Z) (v : Z) : bool :=
  Qle_bool (p * inject_Z (Z.of_nat (List.length l)))
           (inject_Z (Z.of_nat (count_le v l))).

(** Modelled from the spec: the percentile [p] of [l], the least value of
    [l] that [reaches] the fraction [p]. *)
Definition percentile_of (p : Q) (l : list Z) : Z :=
  match filter (reaches p l) l with
  | [] => 0
  | v :: vs => fold_right Z.min v vs
  end.

(** Modelled from the spec: the fixed set of percentiles of an answer. *)
Definition percentiles : list Q := [1 # 2; 3 # 4; 9 # 10; 99 # 100; 1 # 1].

(** Modelled from the spec: the estimator's answer for a window, one
    [{percentile, time}] per percentile; a window that meets no busy period
    gets 0 at every percentile. *)
Definition estimate (busy : list (Z * Z)) (startTime endTime : Z)
  : list TTI.Latency.t :=
  let distribution := map (latency_at busy) (instants startTime endTime) in
  map (fun p => TTI.Latency.mk p (percentile_of p distribution)) percentiles.

End Estimator.

(** ** The scenarios of the specification *)

Module Scenario.

Definition fmp (fmpTiming : Z) : TTI.FMP.Result :=
  TTI.FMP.mkResult fmpTiming
    (TTI.FMP.mkExtendedInfo (TTI.FMP.mkTimings fmpTiming 0)).

(** Progress reaches 85% at t = 1200. *)
Definition frames_ready_at_1200 : list TTI.SpeedlineFrame.t :=
  [ TTI.SpeedlineFrame.mk 0 0;
    TTI.SpeedlineFrame.mk 40 600;
    TTI.SpeedlineFrame.mk 85 1200;
    TTI.SpeedlineFrame.mk 100 2600 ].

(** Progress never reaches 85%. *)
Definition frames_never_ready : list TTI.SpeedlineFrame.t :=
  [ TTI.SpeedlineFrame.mk 0 0;
    TTI.SpeedlineFrame.mk 40 600;
    TTI.SpeedlineFrame.mk 80 1200;
    TTI.SpeedlineFrame.mk 84 2600 ].

(** Scenario A: bounds [0, 10000], one busy period [2000, 2100],
    layout stable at 1000, visually ready at 1200. *)
Definition A : option (TTI.Outcome * list (Z * Z)) :=
  TTI.audit_run 10000 (Estimator.estimate [(2000, 2100)])
                (fmp 1000) frames_ready_at_1200.

(** Scenario B: continuous busy activity over [0, 9900], bounds max 10000. *)
Definition B : option (TTI.Outcome * list (Z * Z)) :=
  TTI.audit_run 10000 (Estimator.estimate [(0, 9900)])
                (fmp 1000) frames_ready_at_1200.

(** Scenario C: the progress sequence never reaches 85%. *)
Definition C : option (TTI.Outcome * list (Z * Z)) :=
  TTI.audit_run 10000 (Estimator.estimate [(2000, 2100)])
                (fmp 1000) frames_never_ready.

(** An estimator whose 90th-percentile estimate is the threshold itself,
    whatever the window. *)
Definition at_threshold (startTime endTime : Z) : list TTI.Latency.t :=
  [ TTI.Latency.mk (1 # 2) 20; TTI.Latency.mk (9 # 10) 50 ].

Definition D : option (TTI.Outcome * list (Z * Z)) :=
  TTI.audit_run 10000 at_threshold (fmp 1000) frames_ready_at_1200.

End Scenario.

(** ** cache-start-url.js *)

Module CacheStartUrl.

(** The JavaScript values an artifact can hold. *)
#[local] Set Warnings "-register-all".
Inductive JSValue : Type :=
| JSUndefined : JSValue
| JSNull : JSValue
| JSBoolean : bool -> JSValue
| JSNumber : Z -> JSValue
| JSString : string -> JSValue
| JSArray : list JSValue -> JSValue
| JSObject : list (string * JSValue) -> JSValue.

(** ToBoolean: [undefined], [null], [false], [0] and the empty string are
    falsy; every object, array included, is truthy. *)
Definition truthy (v : JSValue) : bool :=
  match v with
  | JSUndefined | JSNull => false
  | JSBoolean b => b
  | JSNumber n => negb (n =? 0)
  | JSString s => negb (String.eqb s "")
  | JSArray _ | JSObject _ => true
  end.

Fixpoint lookup (key : string) (props : list (string * JSValue)) : JSValue :=
  match props with
  | [] => JSUndefined
  | (k, v) :: rest => if String.eqb k key then v else lookup key rest
  end.

(** [v.key] for a [v] that is neither [undefined] nor [null] and a [key]
    among [value], [start_url] and [raw], which no prototype defines: an own
    property of an object, [undefined] otherwise. *)
Definition get (v : JSValue) (key : string) : JSValue :=
  match v with
  | JSObject props => lookup key props
  | _ => JSUndefined
  end.

Definition isArray (v : JSValue) : bool :=
  match v with
  | JSArray _ => true
  | _ => false
  end.

(** [s === v] for a string [s]. *)
Definition strict_eq_string (s : string) (v : JSValue) : bool :=
  match v with
  | JSString s' => String.eqb s s'
  | _ => false
  end.

(** [v !== undefined]. *)
Definition not_undefined (v : JSValue) : bool :=
  match v with
  | JSUndefined => false
  | _ => true
  end.

(** The artifacts the audit requires. *)
Record Artifacts : Type := mkArtifacts {
  Manifest : JSValue;
  CacheContents : JSValue;
  URL : JSValue
}.

(** The audit returns [generateAuditResult({rawValue})] or raises: a
    [TypeError] when [url.resolve] is handed a value that is not a string, a
    [URIError] when [url.resolve] rejects a string. *)
Inductive Outcome : Type :=
| TypeError : Outcome
| URIError : Outcome
| RawValue : bool -> Outcome.

(** *** Regular expressions

    The fragment of JavaScript regular expressions the audit uses: literal
    characters, negated one-character classes, [$] (no [m] flag: the end of
    the input), sequence, alternation and the greedy star.  Capture groups
    do not change what is matched and are left out. *)
Inductive regex : Type :=
| Char : ascii -> regex
| NotChar : ascii -> regex
| EndOfInput : regex
| Seq : regex -> regex -> regex
| Alt : regex -> regex -> regex
| Star : regex -> regex.

(** Backtracking matcher in continuation-passing style: [rmatch r s k] tries
    the ways [r] can match a prefix of [s] in priority order and hands the
    rest of the input to [k]; the first success is the answer.  As in
    ECMAScript's RepeatMatcher, an iteration of a star that consumes nothing
    is rejected, so each iteration shortens the input and [S (length s)]
    iterations are enough. *)
Fixpoint rmatch (r : regex) (s : string) (k : string -> option string)
  : option string :=
  match r with
  | Char c =>
      match s with
      | String x s' => if Ascii.eqb x c then k s' else None
      | EmptyString => None
      end
  | NotChar c =>
      match s with
      | String x s' => if Ascii.eqb x c then None else k s'
      | EmptyString => None
      end
  | EndOfInput =>
      match s with
      | EmptyString => k EmptyString
      | String _ _ => None
      end
  | Seq r1 r2 => rmatch r1 s (fun s1 => rmatch r2 s1 k)
  | Alt r1 r2 =>
      match rmatch r1 s k with
      | Some rest => Some rest
      | None => rmatch r2 s k
      end
  | Star r1 =>
      (fix loop (n : nat) (s : string) : option string :=
         match n with
         | O => k s
         | S n' =>
             match rmatch r1 s
                     (fun s1 =>
                        if (String.length s1 <? String.length s)%nat
                        then loop n' s1 else None) with
             | Some rest => Some rest
             | None => k s
             end
         end) (S (String.length s)) s
  end.

(** The leftmost match of [r] in [s] replaced by [by_]; [None] when [r]
    matches nowhere. *)
Fixpoint replace_first (r : regex) (by_ : string) (s : string)
  : option string :=
  match rmatch r s Some with
  | Some rest => Some (by_ ++ rest)%string
  | None =>
      match s with
      | EmptyString => None
      | String c s' => option_map (String c) (replace_first r by_ s')
      end
  end.

(** [s.replace(r, by_)] for a regular expression without the [g] flag. *)
Definition replace (r : regex) (by_ : string) (s : string) : string :=
  match replace_first r by_ s with
  | Some s' => s'
  | None => s
  end.

Fixpoint literal (s : string) : regex -> regex :=
  match s with
  | EmptyString => fun r => r
  | String c s' => fun r => Seq (Char c) (literal s' r)
  end.

(** The regular expression of the first [replace]: a question mark, [utm_],
    a greedy run of characters other than [=], an [=], then a greedy run of
    characters other than [&] (or the end of the input). *)
Definition utm_regex : regex :=
  literal "?utm_"
    (Seq (Star (NotChar "="))
       (Seq (Char "=") (Star (Alt (NotChar "&") EndOfInput)))).

(** The regular expression of the second [replace]: a question mark at the
    end of the input. *)
Definition trailing_question_mark : regex := Seq (Char "?") EndOfInput.

Definition strip_utm (startURL : string) : string :=
  replace trailing_question_mark "" (replace utm_regex "" startURL).

(** The loop of the star case of [rmatch], by itself. *)
Definition star_loop (r1 : regex) (k : string -> option string)
  : nat -> string -> option string :=
  fix loop (n : nat) (s : string) : option string :=
    match n with
    | O => k s
    | S n' =>
        match rmatch r1 s
                (fun s1 =>
                   if (String.length s1 <? String.length s)%nat
                   then loop n' s1 else None) with
        | Some rest => Some rest
        | None => k s
        end
    end.

(** The character [c] does not occur in [s]. *)
Fixpoint lacks (c : ascii) (s : string) : bool :=
  match s with
  | EmptyString => true
  | String x s' => negb (Ascii.eqb x c) && lacks c s'
  end.

(** [s] begins with [p]. *)
Fixpoint starts_with (p s : string) : bool :=
  match p, s with
  | EmptyString, _ => true
  | String _ _, EmptyString => false
  | String c p', String x s' => Ascii.eqb x c && starts_with p' s'
  end.

(** [p] occurs somewhere in [s]. *)
Fixpoint occurs (p s : string) : bool :=
  starts_with p s ||
  match s with
  | EmptyString => false
  | String _ s' => occurs p s'
  end.

(** The last character of [s] is [c]. *)
Fixpoint ends_with (c : ascii) (s : string) : bool :=
  match s with
  | EmptyString => false
  | String x EmptyString => Ascii.eqb x c
  | String _ s' => ends_with c s'
  end.

(** What may follow the value of a query parameter: nothing, or the [&] of
    the next parameter. *)
Definition query_tail (tail : string) : bool :=
  match tail with
  | EmptyString => true
  | String c _ => Ascii.eqb c "&"
  end.

Section Audit.

(** Node's [url.resolve(from, to)] on two strings: the resolved URL, or
    nothing when it throws (a [URIError], on a string it cannot decode). *)
Variable url_resolve : string -> string -> option string.

(** The condition of the guard. *)
Definition complete (artifacts : Artifacts) : bool :=
  truthy (Manifest artifacts) &&
  truthy (get (Manifest artifacts) "value") &&
  truthy (get (get (Manifest artifacts) "value") "start_url") &&
  isArray (CacheContents artifacts) &&
  truthy (URL artifacts).

(** [CacheStartUrl.audit].  [url.resolve] raises a [TypeError] unless both
    of its arguments are strings. *)
Definition audit (artifacts : Artifacts) : Outcome :=
  if negb (complete artifacts) then RawValue false
  else
    let manifest := get (Manifest artifacts) "value" in
    let cacheContents :=
      match CacheContents artifacts with
      | JSArray l => l
      | _ => []
      end in
    let baseURL := URL artifacts in
    match baseURL, get (get manifest "start_url") "raw" with
    | JSString from, JSString to =>
        match url_resolve from to with
        | None => URIError
        | Some startURL =>
            let altStartURL := strip_utm startURL in
            let cacheHasStartUrl :=
              match find (fun req => strict_eq_string startURL req
                                     || strict_eq_string altStartURL req)
                         cacheContents with
              | Some req => req
              | None => JSUndefined
              end in
            RawValue (not_undefined cacheHasStartUrl)
        end
    | _, _ => TypeError
    end.

End Audit.

(** A manifest node [{raw, value, debugString}]. *)
Definition node (raw value : JSValue) : JSValue :=
  JSObject [("raw", raw); ("value", value); ("debugString", JSUndefined)]%string.

(** The parsed manifest of a page whose manifest has the start URL [raw]. *)
Definition manifest_with (raw : JSValue) : JSValue :=
  node JSUndefined (JSObject [("start_url", node raw raw)]%string).

(** [url.resolve] on an absolute second argument that is already
    normalised: the result is that argument. *)
Definition resolve_absolute (from to : string) : option string := Some to.

End CacheStartUrl.

(** * Properties *)

(** ** The search loop *)

Section Search.

Variable endOfTraceTime : Z.
Variable getRiskToResponsiveness : Z -> Z -> list TTI.Latency.t.

Import TTI.

Local Abbreviation body := (TTI.body endOfTraceTime getRiskToResponsiveness).
Local Abbreviation while :=
  (TTI.while endOfTraceTime getRiskToResponsiveness).
Local Abbreviation search :=
  (TTI.search endOfTraceTime getRiskToResponsiveness).
Local Abbreviation remaining := (TTI.remaining endOfTraceTime).
Local Abbreviation sample_of := (TTI.sample_of getRiskToResponsiveness).
Local Abbreviation windows_inv :=
  (TTI.windows_inv endOfTraceTime getRiskToResponsiveness).
Local Abbreviation windows_post :=
  (TTI.windows_post endOfTraceTime getRiskToResponsiveness).
Local Abbreviation audit_run :=
  (TTI.audit_run endOfTraceTime getRiskToResponsiveness).
Local Abbreviation audit :=
  (TTI.audit endOfTraceTime getRiskToResponsiveness).

(** What one execution of the body does to the loop variables. *)
Lemma body_cases (s : Loop) :
  let start := startTime s + 50 in
  (start + 500 > endOfTraceTime /\
   body s = Return (mkLoop start (currentLatency s) (foundLatencies s)
                           (queried s) (S (iterations s))))
  \/
  (start + 500 <= endOfTraceTime /\
   find at_percentile (getRiskToResponsiveness start (start + 500)) = None /\
   body s = Throw (mkLoop start (currentLatency s)
                          (foundLatencies s ++ [sample_of (start, start + 500)])
                          (queried s ++ [(start, start + 500)])
                          (S (iterations s))))
  \/
  (start + 500 <= endOfTraceTime /\
   exists est,
     find at_percentile (getRiskToResponsiveness start (start + 500))
       = Some est /\
     body s = Next (mkLoop start (Fin (Latency.time est))
                           (foundLatencies s ++ [sample_of (start, start + 500)])
                           (queried s ++ [(start, start + 500)])
                           (S (iterations s)))).
Proof.
  cbv zeta. unfold TTI.body, TTI.sample_of. cbn [fst snd].
  destruct (startTime s + 50 + 500 >? endOfTraceTime) eqn:Hend.
  - left. split; [apply Z.gtb_lt in Hend; lia | reflexivity].
  - right.
    assert (startTime s + 50 + 500 <= endOfTraceTime) as Hle.
    { destruct (Z.gtb_spec (startTime s + 50 + 500) endOfTraceTime);
        [discriminate | lia]. }
    destruct (find at_percentile _) as [est|] eqn:Hfind.
    + right. split; [exact Hle|]. exists est. split; reflexivity.
    + left. split; [exact Hle|]. split; reflexivity.
Qed.

(** A Hoare-style rule for the loop: an invariant [I] of the loop head that
    the body preserves gives [Q] at every exit. *)
Lemma while_rule (I : Loop -> Prop) (Q : Exit -> Prop) :
  (forall s, I s -> continue s = true ->
     match body s with
     | Next s' => I s'
     | Return s' => Q (Exhausted s')
     | Throw s' => Q (Thrown s')
     end) ->
  (forall s, I s -> continue s = false -> Q (Done s)) ->
  forall fuel s e, I s -> while fuel s = Some e -> Q e.
Proof.
  intros Hbody Hdone fuel.
  induction fuel as [|fuel IH]; intros s e HI Hrun; simpl in Hrun.
  - destruct (continue s) eqn:Hc; [discriminate|].
    injection Hrun as <-. now apply Hdone.
  - destruct (continue s) eqn:Hc.
    + specialize (Hbody s HI Hc).
      destruct (body s) as [s'|s'|s'].
      * exact (IH s' e Hbody Hrun).
      * injection Hrun as <-. exact Hbody.
      * injection Hrun as <-. exact Hbody.
    + injection Hrun as <-. now apply Hdone.
Qed.

Lemma remaining_next (s s' : Loop) :
  body s = Next s' -> remaining s = S (remaining s').
Proof.
  intros Hb. unfold TTI.remaining.
  destruct (body_cases s) as [[_ H]|[(_ & _ & H)|(Hle & est & _ & H)]];
    rewrite H in Hb; try discriminate.
  injection Hb as <-. cbn [startTime].
  replace (endOfTraceTime - startTime s - 500)
    with ((endOfTraceTime - (startTime s + 50) - 500) + 1 * 50) by lia.
  rewrite Z.div_add by lia.
  rewrite Z2Nat.inj_add by (try apply Z.div_pos; lia).
  simpl. lia.
Qed.

(** The loop terminates: [remaining s] executions of the body are enough. *)
Lemma while_terminates (fuel : nat) :
  forall s, (remaining s <= fuel)%nat -> exists e, while fuel s = Some e.
Proof.
  induction fuel as [|fuel IH]; intros s Hfuel.
  - unfold TTI.remaining in Hfuel. lia.
  - simpl. destruct (continue s); [|eauto].
    destruct (body s) as [s'|s'|s'] eqn:Hb; eauto.
    apply IH. apply remaining_next in Hb. lia.
Qed.

(** More fuel does not change the loop's answer. *)
Lemma while_fuel_monotone (fuel : nat) :
  forall fuel' s e,
    (fuel <= fuel')%nat -> while fuel s = Some e -> while fuel' s = Some e.
Proof.
  induction fuel as [|fuel IH]; intros fuel' s e Hle Hrun; simpl in Hrun.
  - destruct fuel'; simpl; destruct (continue s); congruence.
  - destruct fuel' as [|fuel']; [lia|]. simpl.
    destruct (continue s); [|exact Hrun].
    destruct (body s); [|exact Hrun|exact Hrun].
    apply (IH fuel'); [lia | exact Hrun].
Qed.

Lemma search_terminates (startTime0 : Z) :
  exists e, search startTime0 = Some e.
Proof.
  unfold TTI.search. apply while_terminates. unfold fuel_for. lia.
Qed.

Ltac body_step s :=
  let Hgt := fresh "Hgt" in
  let Hle := fresh "Hle" in
  let Hnone := fresh "Hnone" in
  let Hsome := fresh "Hsome" in
  let Hb := fresh "Hb" in
  let est := fresh "est" in
  destruct (body_cases s)
    as [[Hgt Hb]|[(Hle & Hnone & Hb)|(Hle & est & Hsome & Hb)]];
  rewrite Hb; cbn [startTime currentLatency foundLatencies queried
                   iterations exit_state].

Lemma window_starts_snoc (startTime0 : Z) (n : nat) :
  window_starts startTime0 (S n)
  = window_starts startTime0 n ++ [startTime0 + 50 * Z.of_nat (S n)].
Proof.
  unfold window_starts. rewrite seq_S, map_app. reflexivity.
Qed.

Lemma stepwise_progression (startTime0 : Z) (n : nat) :
  forall a,
    stepwise 50 (map (fun k => startTime0 + 50 * Z.of_nat (S k)) (seq a n)).
Proof.
  induction n as [|n IH]; intros a; [exact I|].
  specialize (IH (S a)). destruct n as [|n]; [exact I|].
  cbn [seq map] in IH |- *. cbn [stepwise]. split; [lia | exact IH].
Qed.

Lemma windows_inv_init (startTime0 : Z) :
  windows_inv startTime0 (init startTime0).
Proof.
  unfold TTI.windows_inv, init. cbn. repeat split; try lia. constructor.
Qed.

Lemma windows_inv_snoc (startTime0 : Z) (s : Loop) (lat : Num) :
  windows_inv startTime0 s ->
  startTime s + 50 + 500 <= endOfTraceTime ->
  let w := (startTime s + 50, startTime s + 50 + 500) in
  windows_inv startTime0
    (mkLoop (startTime s + 50) lat (foundLatencies s ++ [sample_of w])
            (queried s ++ [w]) (S (iterations s))).
Proof.
  intros (Hstart & Hlen & Hstarts & Hwin & Hfound) Hle. cbv zeta.
  unfold TTI.windows_inv.
  cbn [startTime currentLatency foundLatencies queried iterations].
  rewrite length_app, !map_app. cbn [List.length map fst].
  replace (List.length (queried s) + 1)%nat
    with (S (List.length (queried s))) by lia.
  rewrite window_starts_snoc, <- Hstarts, Hfound, Hlen.
  repeat split; try lia.
  - f_equal. f_equal. lia.
  - apply Forall_app. split; [exact Hwin|].
    constructor; [cbn; lia | constructor].
Qed.

Lemma windows_inv_post (startTime0 : Z) (s : Loop) (e : Exit) :
  windows_inv startTime0 s -> exit_state e = s -> windows_post startTime0 e.
Proof.
  intros (_ & _ & Hstarts & Hwin & Hfound) <-. repeat split; assumption.
Qed.

Lemma while_windows (startTime0 : Z) (fuel : nat) (e : Exit) :
  while fuel (init startTime0) = Some e -> windows_post startTime0 e.
Proof.
  apply (while_rule (windows_inv startTime0) (windows_post startTime0)).
  - intros s Hinv _. body_step s.
    + destruct Hinv as (_ & _ & Hstarts & Hwin & Hfound).
      repeat split; assumption.
    + apply (windows_inv_post startTime0 _ _
               (windows_inv_snoc startTime0 s (currentLatency s) Hinv Hle)).
      reflexivity.
    + exact (windows_inv_snoc startTime0 s _ Hinv Hle).
  - intros s Hinv _. now apply (windows_inv_post startTime0 s).
  - apply windows_inv_init.
Qed.

(** The loop executes its body at most [fuel_for startTime0] times. *)
Lemma while_iterations (startTime0 : Z) (fuel : nat) (e : Exit) :
  while fuel (init startTime0) = Some e ->
  (iterations (exit_state e) <= fuel_for endOfTraceTime startTime0)%nat.
Proof.
  apply (while_rule
           (fun s => (iterations s + remaining s
                      <= fuel_for endOfTraceTime startTime0)%nat)
           (fun e => (iterations (exit_state e)
                      <= fuel_for endOfTraceTime startTime0)%nat)).
  - intros s Hinv _.
    destruct (TTI.body endOfTraceTime getRiskToResponsiveness s)
      as [s'|s'|s'] eqn:Hbody.
    + pose proof (remaining_next s s' Hbody) as Hrem.
      destruct (body_cases s) as [[_ H]|[(_ & _ & H)|(_ & est & _ & H)]];
        rewrite H in Hbody; try discriminate.
      injection Hbody as <-. cbn [iterations] in *. lia.
    + destruct (body_cases s) as [[_ H]|[(_ & _ & H)|(_ & est & _ & H)]];
        rewrite H in Hbody; try discriminate.
      injection Hbody as <-. cbn [iterations exit_state].
      unfold TTI.remaining in Hinv. lia.
    + destruct (body_cases s) as [[_ H]|[(_ & _ & H)|(_ & est & _ & H)]];
        rewrite H in Hbody; try discriminate.
      injection Hbody as <-. cbn [iterations exit_state].
      unfold TTI.remaining in Hinv. lia.
  - intros s Hinv _. cbn [exit_state]. lia.
  - unfold fuel_for. cbn [iterations init]. lia.
Qed.

Lemma fuel_for_bound (startTime0 : Z) :
  Z.of_nat (fuel_for endOfTraceTime startTime0)
  <= Z.max 0 (ceil_div (endOfTraceTime - (startTime0 + 50)) 50) + 1.
Proof.
  clear getRiskToResponsiveness.
  unfold fuel_for, TTI.remaining, ceil_div. cbn [startTime init].
  rewrite Nat2Z.inj_succ, ZifyInst.of_nat_to_nat_eq.
  Z.to_euclidean_division_equations. lia.
Qed.

Lemma ceil_div_monotone (a b : Z) :
  a <= b -> ceil_div a 50 <= ceil_div b 50.
Proof.
  clear endOfTraceTime getRiskToResponsiveness.
  intros Hab. unfold ceil_div. Z.to_euclidean_division_equations. lia.
Qed.

(** The loop ends normally exactly on a finite latency that is not above
    the threshold. *)
Lemma continue_false (s : Loop) :
  continue s = false <->
  exists z, currentLatency s = Fin z /\ z <= threshold.
Proof.
  unfold continue, num_gt. destruct (currentLatency s) as [|z].
  - split; [discriminate | intros (z & Hz & _); discriminate].
  - destruct (Z.gtb_spec z threshold); split;
      try discriminate; try reflexivity.
    + intros (z' & Hz & Hle). injection Hz as <-. lia.
    + intros _. exists z. split; [reflexivity | lia].
Qed.

Lemma continue_true (s : Loop) (z : Z) :
  continue s = true -> currentLatency s = Fin z -> z > threshold.
Proof.
  unfold continue. intros Hc Hz. rewrite Hz in Hc. cbn in Hc.
  apply Z.gtb_lt in Hc. lia.
Qed.

Lemma trail_inv_snoc (s : Loop) (est : Latency.t) (start : Z) :
  trail_inv s -> continue s = true -> at_percentile est = true ->
  trail_inv (mkLoop start (Fin (Latency.time est))
                    (foundLatencies s ++ [Sample.mk (Some est) start])
                    (queried s ++ [(start, start + 500)])
                    (S (iterations s))).
Proof.
  intros Hinv Hc Hq. right.
  exists (foundLatencies s), (Sample.mk (Some est) start), est.
  cbn [startTime currentLatency foundLatencies Sample.startTime
       Sample.estLatency].
  repeat split; try assumption.
  destruct Hinv as [[Hnil _]|(earlier & last & est' & Hf & _ & He & _ & Hl & Hall)].
  - rewrite Hnil. constructor.
  - rewrite Hf. apply Forall_app. split; [exact Hall|].
    constructor; [|constructor].
    exists est'. split; [exact He|]. exact (continue_true s _ Hc Hl).
Qed.

(** At a normal end of the loop the trail is not empty, its last sample is
    the window the loop stopped at, and that sample is the first one not
    above the threshold. *)
Lemma while_trail (startTime0 : Z) (fuel : nat) (s : Loop) :
  while fuel (init startTime0) = Some (Done s) ->
  exists earlier last est,
    foundLatencies s = earlier ++ [last] /\
    Sample.startTime last = startTime s /\
    Sample.estLatency last = Some est /\
    at_percentile est = true /\
    currentLatency s = Fin (Latency.time est) /\
    Latency.time est <= threshold /\
    Forall above_threshold earlier.
Proof.
  intros Hrun.
  apply (while_rule trail_inv
           (fun e => match e with
                     | Done s => trail_inv s /\ continue s = false
                     | _ => True
                     end)) in Hrun.
  - destruct Hrun as [[[_ Hinf]|Hinv] Hc].
    + unfold continue in Hc. rewrite Hinf in Hc. discriminate.
    + destruct Hinv as (earlier & last & est & Hf & Hs & He & Hq & Hl & Hall).
      exists earlier, last, est. repeat split; try assumption.
      apply continue_false in Hc. destruct Hc as (z & Hz & Hle).
      rewrite Hl in Hz. injection Hz as <-. exact Hle.
  - intros s' Hinv Hc. body_step s'; try exact I.
    unfold TTI.sample_of. cbn [fst snd]. rewrite Hsome.
    apply (trail_inv_snoc s' est (startTime s' + 50) Hinv Hc).
    apply find_some in Hsome. apply Hsome.
  - intros s' Hinv Hc. split; assumption.
  - left. split; reflexivity.
Qed.

(** The first window handed to the estimator starts 50ms after the initial
    [startTime], when a window fits the trace there, and no window is
    queried otherwise. *)
Lemma while_first_window (startTime0 : Z) (fuel : nat) (e : Exit) :
  while fuel (init startTime0) = Some e ->
  match queried (exit_state e) with
  | [] => startTime0 + 50 + 500 > endOfTraceTime
  | w :: _ =>
      w = (startTime0 + 50, startTime0 + 50 + 500) /\
      startTime0 + 50 + 500 <= endOfTraceTime
  end.
Proof.
  intros Hrun. pose proof (while_windows startTime0 fuel e Hrun) as Hpost.
  apply (while_rule
           (fun s => (queried s = [] /\ startTime s = startTime0 /\
                      currentLatency s = Infinity) \/
                     (queried s <> [] /\
                      startTime0 + 50 + 500 <= endOfTraceTime))
           (fun e => match queried (exit_state e) with
                     | [] => startTime0 + 50 + 500 > endOfTraceTime
                     | _ :: _ => startTime0 + 50 + 500 <= endOfTraceTime
                     end)) in Hrun.
  - destruct Hpost as (Hstarts & Hwin & _).
    destruct (queried (exit_state e)) as [|[a b] rest]; [exact Hrun|].
    split; [|exact Hrun].
    cbn [List.length] in Hstarts. unfold window_starts in Hstarts.
    cbn [seq map fst] in Hstarts. injection Hstarts as Ha _.
    apply Forall_inv in Hwin. cbn [fst snd] in Hwin.
    f_equal; lia.
  - intros s Hinv _. body_step s.
    + destruct Hinv as [(Hnil & Hs & _)|(Hne & Hfit)].
      * rewrite Hnil. lia.
      * destruct (queried s); [congruence | exact Hfit].
    + destruct Hinv as [(Hnil & Hs & _)|(Hne & Hfit)].
      * rewrite Hnil. cbn [app]. lia.
      * destruct (queried s); [congruence | exact Hfit].
    + right. split; [now destruct (queried s)|].
      destruct Hinv as [(Hnil & Hs & _)|(Hne & Hfit)]; lia.
  - intros s Hinv Hc. cbn [exit_state].
    destruct Hinv as [(_ & _ & Hinf)|(Hne & Hfit)].
    + unfold continue in Hc. rewrite Hinf in Hc. discriminate.
    + destruct (queried s); [congruence | exact Hfit].
  - left. repeat split.
Qed.

(** [finish] keeps the log of the loop. *)
Lemma finish_log (fmpTiming visuallyReadyTiming : Z) (e : Exit) :
  snd (finish fmpTiming visuallyReadyTiming e) = queried (exit_state e).
Proof. destruct e; reflexivity. Qed.

(** The audit always has an outcome: either the lookup finds no sample and
    the callback throws before the loop, or it continues with the outcome
    of a search. *)
Lemma audit_run_cases (fmpResult : FMP.Result)
      (frames : list SpeedlineFrame.t) :
  (visuallyReady (visualProgress frames) (fMPts fmpResult) = None /\
   audit_run fmpResult frames = Some (TypeError, []))
  \/
  (exists ready e,
     visuallyReady (visualProgress frames) (fMPts fmpResult) = Some ready /\
     let visuallyReadyTiming :=
       Frame.time ready
       - FMP.navStart (FMP.timings (FMP.extendedInfo fmpResult)) in
     search (Z.max (FMP.rawValue fmpResult) visuallyReadyTiming - 50)
       = Some e /\
     audit_run fmpResult frames
       = Some (finish (FMP.rawValue fmpResult) visuallyReadyTiming e)).
Proof.
  unfold TTI.audit_run.
  destruct (visuallyReady (visualProgress frames) (fMPts fmpResult))
    as [ready|]; [right | left; split; reflexivity].
  cbv zeta.
  destruct (search_terminates
              (Z.max (FMP.rawValue fmpResult)
                 (Frame.time ready
                  - FMP.navStart (FMP.timings (FMP.extendedInfo fmpResult)))
               - 50)) as [e He].
  exists ready, e. rewrite He. repeat split.
Qed.

(** Where a loop that ran to its end stands: on a window that fits the
    trace, a positive number of 50ms steps after the initial [startTime],
    with one sample per step in the trail. *)
Lemma while_done_position (startTime0 : Z) (fuel : nat) (s : Loop) :
  while fuel (init startTime0) = Some (Done s) ->
  startTime s = startTime0 + 50 * Z.of_nat (iterations s) /\
  List.length (foundLatencies s) = iterations s /\
  iterations s <> 0%nat /\
  startTime s + 500 <= endOfTraceTime.
Proof.
  intros Hrun.
  apply (while_rule
           (fun s =>
              startTime s = startTime0 + 50 * Z.of_nat (iterations s) /\
              List.length (foundLatencies s) = iterations s /\
              (iterations s = 0%nat \/ startTime s + 500 <= endOfTraceTime) /\
              (currentLatency s = Infinity \/ iterations s <> 0%nat))
           (fun e =>
              match e with
              | Done s =>
                  startTime s = startTime0 + 50 * Z.of_nat (iterations s) /\
                  List.length (foundLatencies s) = iterations s /\
                  iterations s <> 0%nat /\
                  startTime s + 500 <= endOfTraceTime
              | _ => True
              end)) in Hrun; [exact Hrun| | |].
  - intros s' (Hs & Hl & Hfit & Hinf) _. body_step s'; try exact I.
    rewrite length_app. cbn [List.length]. repeat split; lia.
  - intros s' (Hs & Hl & Hfit & Hinf) Hc. repeat split; try assumption.
    + destruct Hinf as [Hinf|Hne]; [|exact Hne].
      unfold continue in Hc. rewrite Hinf in Hc. discriminate.
    + destruct Hfit as [H0|Hfit]; [|exact Hfit].
      destruct Hinf as [Hinf|Hne]; [|contradiction].
      unfold continue in Hc. rewrite Hinf in Hc. discriminate.
  - cbn. repeat split; try lia; left; reflexivity.
Qed.

(** At a loop head that goes on, every sample of the trail is above the
    threshold. *)
Lemma trail_all_above (s : Loop) :
  trail_inv s -> continue s = true ->
  Forall above_threshold (foundLatencies s).
Proof.
  intros [[-> _]|(earlier & last & est & -> & _ & He & _ & Hl & Hall)] Hc;
    [constructor|].
  apply Forall_app. split; [exact Hall|]. constructor; [|constructor].
  exists est. split; [exact He|]. exact (continue_true s _ Hc Hl).
Qed.

Lemma while_stops_for_reason (startTime0 : Z) (fuel : nat) (e : Exit) :
  while fuel (init startTime0) = Some e ->
  TTI.stop_reason endOfTraceTime startTime0 e.
Proof.
  apply (while_rule
           (fun s =>
              trail_inv s /\
              startTime s
                = startTime0 + 50 * Z.of_nat (List.length (queried s)))
           (TTI.stop_reason endOfTraceTime startTime0)).
  - intros s [Htrail Hs] Hc. unfold TTI.stop_reason.
    pose proof (trail_all_above s Htrail Hc) as Hall.
    body_step s.
    + split; [lia | exact Hall].
    + exists (foundLatencies s), (sample_of (startTime s + 50,
                                             startTime s + 50 + 500)).
      unfold TTI.sample_of. cbn [fst snd Sample.estLatency].
      repeat split; assumption.
    + split.
      * unfold TTI.sample_of. cbn [fst snd]. rewrite Hsome.
        apply (trail_inv_snoc s est (startTime s + 50) Htrail Hc).
        apply find_some in Hsome. apply Hsome.
      * rewrite length_app. cbn [List.length]. lia.
  - intros s [[[_ Hinf]|Hinv] _] Hc.
    + unfold continue in Hc. rewrite Hinf in Hc. discriminate.
    + destruct Hinv as (earlier & last & est & Hf & _ & He & _ & Hl & Hall).
      exists earlier, last, est. repeat split; try assumption.
      apply continue_false in Hc. destruct Hc as (z & Hz & Hle).
      rewrite Hl in Hz. injection Hz as <-. exact Hle.
  - split; [left; split; reflexivity | cbn; lia].
Qed.

(** Windows known by their starts and their width. *)
Lemma windows_from_starts (log : list (Z * Z)) :
  forall starts,
    map fst log = starts ->
    Forall (fun w => snd w = fst w + 500) log ->
    log = map (fun start => (start, start + 500)) starts.
Proof.
  induction log as [|[a b] log IH]; intros starts <- Hall; [reflexivity|].
  apply Forall_cons_iff in Hall. destruct Hall as [Hb Hall].
  cbn [fst snd map] in *. subst b. f_equal. now apply IH.
Qed.

End Search.

(** ** The loop on doubles *)

Module DoubleFacts.

Lemma round_exact (z : Z) :
  - 2 ^ 53 <= z <= 2 ^ 53 -> Double.round z = z.
Proof.
  intros Hz. unfold Double.round. cbv zeta.
  destruct (Z.ltb_spec (Z.abs z) (2 ^ 53)) as [Hlt|Hge]; [reflexivity|].
  assert (z = 2 ^ 53 \/ z = - 2 ^ 53) as [->| ->] by lia;
    vm_compute; reflexivity.
Qed.

Lemma add_exact (a b : Z) :
  - 2 ^ 53 <= a + b <= 2 ^ 53 -> Double.add a b = a + b.
Proof. apply round_exact. Qed.

Section Agreement.

Variable endOfTraceTime : Z.
Variable getRiskToResponsiveness : Z -> Z -> list TTI.Latency.t.

(** On exact timestamps one execution of the body on doubles is one
    execution of the body on integers. *)
Lemma body_agrees (s : TTI.Loop) :
  Double.exact (TTI.startTime s) ->
  Double.body endOfTraceTime getRiskToResponsiveness s
  = TTI.body endOfTraceTime getRiskToResponsiveness s.
Proof.
  unfold Double.exact. intros Hs.
  assert (2 ^ 52 = 4503599627370496) as H52 by reflexivity.
  assert (2 ^ 53 = 9007199254740992) as H53 by reflexivity.
  unfold Double.body, TTI.body.
  rewrite (add_exact (TTI.startTime s) 50) by lia.
  rewrite (add_exact (TTI.startTime s + 50) 500) by lia.
  reflexivity.
Qed.

(** So are whole runs, on a trace that ends at an exact timestamp. *)
Lemma while_agrees (fuel : nat) :
  endOfTraceTime <= 2 ^ 52 ->
  forall s,
    Double.exact (TTI.startTime s) ->
    Double.while endOfTraceTime getRiskToResponsiveness fuel s
    = TTI.while endOfTraceTime getRiskToResponsiveness fuel s.
Proof.
  intros HE. induction fuel as [|fuel IH]; intros s Hs; [reflexivity|].
  cbn [Double.while TTI.while]. rewrite (body_agrees s Hs).
  destruct (TTI.continue s); [|reflexivity].
  destruct (body_cases endOfTraceTime getRiskToResponsiveness s)
    as [[_ Hb]|[(_ & _ & Hb)|(Hle & est & _ & Hb)]]; rewrite Hb;
    try reflexivity.
  apply IH. unfold Double.exact in *. cbn [TTI.startTime]. lia.
Qed.

Lemma search_agrees (startTime0 : Z) :
  endOfTraceTime <= 2 ^ 52 ->
  Double.exact startTime0 ->
  Double.search endOfTraceTime getRiskToResponsiveness startTime0
  = TTI.search endOfTraceTime getRiskToResponsiveness startTime0.
Proof.
  intros HE Hs. unfold Double.search, TTI.search.
  now apply while_agrees.
Qed.

End Agreement.

(** At [2^60] the step of 50 is absorbed and the window is 512 wide. *)
Lemma add_absorbed : Double.add (2 ^ 60) 50 = 2 ^ 60.
Proof. vm_compute. reflexivity. Qed.

Lemma add_widened : Double.add (2 ^ 60) 500 = 2 ^ 60 + 512.
Proof. vm_compute. reflexivity. Qed.

(** A loop that stands at [2^60] on a busy trace stays there. *)
Lemma while_stuck (fuel : nat) :
  forall s,
    TTI.startTime s = 2 ^ 60 ->
    TTI.continue s = true ->
    Double.while (2 ^ 61) Double.always_busy fuel s = None.
Proof.
  induction fuel as [|fuel IH]; intros s Hs Hc; cbn [Double.while];
    rewrite Hc; [reflexivity|].
  unfold Double.body. rewrite Hs, add_absorbed, add_widened.
  cbn -[Z.pow Double.while]. apply IH; reflexivity.
Qed.

End DoubleFacts.

(** ** The claims about the time-to-interactive audit *)




(** C2 does not hold on the code: in scenario B no window ever drops
    below the threshold; the loop tests 167 windows, recording a sample for
    each, and then leaves the callback through [return;], so the outcome is
    [undefined] and the trail of samples is dropped with it. *)
Theorem exhausted_returns_undefined :
  exists s,
    TTI.search 10000 (Estimator.estimate [(0, 9900)]) 1150
      = Some (TTI.Exhausted s) /\
    List.length (TTI.foundLatencies s) = 167%nat /\
    Scenario.B = Some (TTI.Undefined, TTI.queried s) /\
    TTI.reports_result TTI.Undefined = false.
Proof.
  eexists. split; [vm_compute; reflexivity|].
  repeat split; vm_compute; reflexivity.
Qed.

(** On scenario C the audit reports no result, neither an error value nor
    an indeterminate one. *)
Lemma unready_progress_reports_nothing :
  ~ (exists o log,
       Scenario.C = Some (o, log) /\ TTI.reports_result o = true).
Proof.
  intros (o & log & Hrun & Hreport). vm_compute in Hrun.
  injection Hrun as <- _. discriminate Hreport.
Qed.

(** C3 does not hold on the code: when no progress sample has
    [time >= fMPts] and [progress >= 85], [find] returns [undefined], and
    the next statement reads [time] of it unchecked: the callback throws a
    [TypeError], before any window is handed to the estimator, and no audit
    result is returned. *)
Theorem unready_progress_throws :
  forall endOfTraceTime getRiskToResponsiveness fmpResult frames,
    (forall frame, In frame (TTI.visualProgress frames) ->
       ~ (TTI.Frame.time frame >= TTI.fMPts fmpResult /\
          TTI.Frame.progress frame >= 85)) ->
    TTI.visuallyReady (TTI.visualProgress frames) (TTI.fMPts fmpResult)
      = None /\
    TTI.audit_run endOfTraceTime getRiskToResponsiveness fmpResult frames
      = Some (TTI.TypeError, []) /\
    TTI.audit endOfTraceTime getRiskToResponsiveness fmpResult frames
      = Some TTI.TypeError /\
    TTI.reports_result TTI.TypeError = false.
Proof.
  intros E est fmpResult frames Hnone.
  assert (TTI.visuallyReady (TTI.visualProgress frames)
            (TTI.fMPts fmpResult) = None) as Hfind.
  { unfold TTI.visuallyReady.
    destruct (find _ _) as [frame|] eqn:Hf; [|reflexivity].
    apply find_some in Hf. destruct Hf as [Hin Hq]. exfalso.
    apply (Hnone frame Hin). unfold TTI.visually_ready in Hq.
    apply andb_prop in Hq. destruct Hq as [Ht Hp].
    apply Z.geb_le in Ht. apply Z.geb_le in Hp. lia. }
  split; [exact Hfind|].
  unfold TTI.audit, TTI.audit_run. rewrite Hfind. repeat split.
Qed.

(** C3 on scenario C. *)
Lemma unready_progress_throws_witness :
  TTI.visuallyReady (TTI.visualProgress Scenario.frames_never_ready)
                    (TTI.fMPts (Scenario.fmp 1000)) = None /\
  Scenario.C = Some (TTI.TypeError, []) /\
  TTI.audit 10000 (Estimator.estimate [(2000, 2100)]) (Scenario.fmp 1000)
            Scenario.frames_never_ready = Some TTI.TypeError /\
  TTI.reports_result TTI.TypeError = false.
Proof.
  apply (unready_progress_throws 10000 (Estimator.estimate [(2000, 2100)])
           (Scenario.fmp 1000) Scenario.frames_never_ready).
  intros frame Hin. simpl in Hin.
  destruct Hin as [<-|[<-|[<-|[<-|[]]]]]; simpl; unfold TTI.fMPts; simpl; lia.
Defined.


(** C5 does not hold on the code: the loop goes on while
    [currentLatency > threshold], so it ends on every finite estimate that is
    at most 50, the threshold itself included; with an estimator that answers
    exactly 50 the first window ends the search and is reported. *)
Theorem threshold_estimate_ends_search :
  (forall s,
     TTI.continue s = false <->
     exists z, TTI.currentLatency s = TTI.Fin z /\ z <= 50)
  /\ TTI.interactive_time Scenario.D = Some 1200
  /\ exists r,
       Scenario.D = Some (TTI.Returned r, [(1200, 1700)]) /\
       TTI.Result.expectedLatencyAtTTI (TTI.Result.extendedInfo r)
         = TTI.Fin 50.
Proof.
  split; [exact continue_false|].
  split; [reflexivity|].
  eexists. split; [vm_compute; reflexivity | reflexivity].
Qed.

(** C6, as the specification states it, fails twice.  For a starting point
    beyond the end of the trace the loop still executes its body once, up to
    the bounds check, while the bound is negative.  And on the program's
    doubles a starting point of [2^60] on a busy trace that ends at [2^61]
    never moves, [startTime += 50] being absorbed: the loop does not
    terminate. *)
Lemma termination_bound_fails :
  (exists e,
     Double.search 10000 (Estimator.estimate []) 20000 = Some e /\
     TTI.iterations (TTI.exit_state e) = 1%nat /\
     TTI.queried (TTI.exit_state e) = [] /\
     TTI.ceil_div (10000 - 20000) 50 + 1 = -199 /\
     ~ (Z.of_nat (TTI.iterations (TTI.exit_state e))
        <= TTI.ceil_div (10000 - 20000) 50 + 1)) /\
  ~ (exists fuel e,
       Double.while (2 ^ 61) Double.always_busy fuel (TTI.init (2 ^ 60))
       = Some e).
Proof.
  split.
  - eexists. split; [vm_compute; reflexivity|].
    repeat split; vm_compute; intros H; apply H; reflexivity.
  - intros (fuel & e & Hrun).
    rewrite DoubleFacts.while_stuck in Hrun; [discriminate| |]; reflexivity.
Qed.

(** C6 (amended): on timestamps of magnitude at most [2^52], where the
    program's additions are exact, the loop terminates for every end of
    trace, estimator and starting point, after at most
    [max(0, ceil((bounds.max - startTime0) / 50)) + 1] executions of its
    body, whether or not the threshold is ever met; [startTime0] is the
    value of [startTime] when the loop is entered.  The bound also holds
    with the start of the first window, [startTime0 + 50], in its place. *)
Theorem search_terminates_within_bound :
  forall endOfTraceTime getRiskToResponsiveness startTime0,
    Double.exact startTime0 ->
    endOfTraceTime <= 2 ^ 52 ->
    exists e,
      Double.search endOfTraceTime getRiskToResponsiveness startTime0
        = Some e /\
      Z.of_nat (TTI.iterations (TTI.exit_state e))
      <= Z.max 0 (TTI.ceil_div (endOfTraceTime - startTime0) 50) + 1 /\
      Z.of_nat (TTI.iterations (TTI.exit_state e))
      <= Z.max 0 (TTI.ceil_div (endOfTraceTime - (startTime0 + 50)) 50) + 1.
Proof.
  intros E est startTime0 Hexact HE.
  rewrite (DoubleFacts.search_agrees E est startTime0 HE Hexact).
  destruct (search_terminates E est startTime0) as [e He].
  exists e. split; [exact He|].
  apply while_iterations in He.
  pose proof (fuel_for_bound E startTime0) as Hfuel.
  pose proof (ceil_div_monotone (E - (startTime0 + 50)) (E - startTime0))
    as Hmono.
  lia.
Qed.

(** C6 (amended) on a loop entered at 1150 on a trace that ends at 10000
    and is busy throughout: 168 executions, within the bound of 178. *)
Lemma search_terminates_within_bound_witness :
  exists e,
    Double.search 10000 Double.always_busy 1150 = Some e /\
    TTI.iterations (TTI.exit_state e) = 168%nat /\
    Z.of_nat (TTI.iterations (TTI.exit_state e))
    <= Z.max 0 (TTI.ceil_div (10000 - 1150) 50) + 1.
Proof.
  destruct (search_terminates_within_bound 10000 Double.always_busy 1150)
    as (e & He & Hbound & _).
  - unfold Double.exact. split; vm_compute; discriminate.
  - vm_compute. discriminate.
  - exists e. split; [exact He|]. split; [|exact Hbound].
    vm_compute in He. injection He as <-. reflexivity.
Defined.

(** The lookup returns the first qualifying sample in array order: it
    qualifies, and no sample before it does. *)
Lemma visuallyReady_first (samples : list TTI.Frame.t) (fMPts : Z)
      (ready : TTI.Frame.t) :
  TTI.visuallyReady samples fMPts = Some ready ->
  exists before after,
    samples = before ++ ready :: after /\
    TTI.visually_ready fMPts ready = true /\
    Forall (fun frame => TTI.visually_ready fMPts frame = false) before.
Proof.
  unfold TTI.visuallyReady.
  induction samples as [|a l IH]; intros Hfind; [discriminate|].
  cbn [find] in Hfind. destruct (TTI.visually_ready fMPts a) eqn:Ha.
  - injection Hfind as <-. exists [], l. repeat split; [exact Ha | constructor].
  - destruct (IH Hfind) as (before & after & -> & Hq & Hall).
    exists (a :: before), after. repeat split; [exact Hq|].
    constructor; assumption.
Qed.

Lemma StronglySorted_suffix {A : Type} (R : A -> A -> Prop) (l1 l2 : list A) :
  StronglySorted R (l1 ++ l2) -> StronglySorted R l2.
Proof.
  induction l1 as [|a l1 IH]; intros H; [exact H|].
  apply IH. apply StronglySorted_inv in H. apply H.
Qed.

Lemma visually_ready_spec (fMPts : Z) (frame : TTI.Frame.t) :
  TTI.visually_ready fMPts frame = true <->
  TTI.Frame.time frame >= fMPts /\ TTI.Frame.progress frame >= 85.
Proof.
  unfold TTI.visually_ready. rewrite andb_true_iff, !Z.geb_le. lia.
Qed.

(** C7, as the specification states it, fails on a progress sequence that
    is not ordered by time: the lookup returns the first qualifying sample in
    array order, here the one at 3000, although the sample at 1200 qualifies
    and is earlier. *)
Lemma visuallyReady_not_minimal_unordered :
  let samples := [TTI.Frame.mk 90 3000; TTI.Frame.mk 90 1200] in
  TTI.visuallyReady samples 1000 = Some (TTI.Frame.mk 90 3000) /\
  ~ (forall frame,
       In frame samples ->
       TTI.Frame.time frame < 3000 ->
       ~ (TTI.Frame.time frame >= 1000 /\ TTI.Frame.progress frame >= 85)).
Proof.
  split; [reflexivity|]. intros H.
  apply (H (TTI.Frame.mk 90 1200)); simpl; [tauto | lia | lia].
Qed.

(** C7 (amended): on a progress sequence ordered by time, the
    visual-readiness lookup returns a sample of the sequence that qualifies ([time >= notBefore] and
    [progress >= 85]) and whose time is minimal: no sample with an earlier
    time qualifies.  The lookup is a function of its arguments: a second
    call with the same arguments yields the same result. *)
Theorem visuallyReady_minimal :
  forall (samples : list TTI.Frame.t) (notBefore : Z) (ready : TTI.Frame.t),
    Sorted (fun a b => TTI.Frame.time a <= TTI.Frame.time b) samples ->
    TTI.visuallyReady samples notBefore = Some ready ->
    In ready samples /\
    TTI.Frame.time ready >= notBefore /\
    TTI.Frame.progress ready >= 85 /\
    (forall frame,
       In frame samples ->
       TTI.Frame.time frame < TTI.Frame.time ready ->
       ~ (TTI.Frame.time frame >= notBefore /\
          TTI.Frame.progress frame >= 85)) /\
    (forall again,
       again = TTI.visuallyReady samples notBefore -> again = Some ready).
Proof.
  intros samples notBefore ready Hsorted Hfind.
  destruct (visuallyReady_first samples notBefore ready Hfind)
    as (before & after & Hsplit & Hq & Hbefore).
  apply visually_ready_spec in Hq.
  split; [rewrite Hsplit; apply in_elt|].
  split; [apply Hq|]. split; [apply Hq|]. split; [|congruence].
  intros frame Hin Hearlier Hqual.
  apply Sorted_StronglySorted in Hsorted; [|intros x y z; lia].
  rewrite Hsplit in Hin, Hsorted. apply in_app_or in Hin.
  destruct Hin as [Hin|Hin].
  - rewrite Forall_forall in Hbefore. specialize (Hbefore frame Hin).
    apply visually_ready_spec in Hqual. congruence.
  - apply StronglySorted_suffix in Hsorted.
    destruct Hin as [<-|Hin]; [lia|].
    apply StronglySorted_inv in Hsorted. destruct Hsorted as [_ Hall].
    rewrite Forall_forall in Hall. specialize (Hall frame Hin). lia.
Qed.

(** C7 on the progress sequence of scenario A, looked up from t = 1000. *)
Lemma visuallyReady_minimal_witness :
  let samples := TTI.visualProgress Scenario.frames_ready_at_1200 in
  let ready := TTI.Frame.mk 85 1200 in
  In ready samples /\
  TTI.Frame.time ready >= 1000 /\
  TTI.Frame.progress ready >= 85 /\
  (forall frame,
     In frame samples ->
     TTI.Frame.time frame < TTI.Frame.time ready ->
     ~ (TTI.Frame.time frame >= 1000 /\ TTI.Frame.progress frame >= 85)) /\
  (forall again,
     again = TTI.visuallyReady samples 1000 -> again = Some ready).
Proof.
  apply (visuallyReady_minimal
           (TTI.visualProgress Scenario.frames_ready_at_1200) 1000
           (TTI.Frame.mk 85 1200)).
  - repeat constructor; simpl; lia.
  - reflexivity.
Defined.






(** ** The cache-start-url audit *)

Section CacheStartUrlAudit.

Import CacheStartUrl.

Variable url_resolve : string -> string -> option string.

Local Abbreviation audit := (CacheStartUrl.audit url_resolve).

(** A failing guard gives [rawValue: false]. *)
Lemma audit_incomplete (artifacts : Artifacts) :
  complete artifacts = false -> audit artifacts = RawValue false.
Proof.
  intros H. unfold CacheStartUrl.audit. rewrite H. reflexivity.
Qed.

(** What the guard checks. *)
Lemma complete_spec (artifacts : Artifacts) :
  complete artifacts = true <->
  truthy (get (get (Manifest artifacts) "value") "start_url") = true /\
  (exists cacheContents, CacheContents artifacts = JSArray cacheContents) /\
  truthy (URL artifacts) = true.
Proof.
  unfold complete. rewrite !andb_true_iff. split.
  - intros [[[[_ _] Hs] Ha] Hu]. repeat split; try assumption.
    destruct (CacheContents artifacts); try discriminate. eauto.
  - intros (Hs & [l Hl] & Hu). rewrite Hl. repeat split; try assumption.
    + destruct (Manifest artifacts); try discriminate Hs; reflexivity.
    + destruct (Manifest artifacts) as [| | | | | |props];
        try discriminate Hs.
      cbn [get] in *. destruct (lookup "value" props); try discriminate Hs;
        reflexivity.
Qed.

(** A strictly equal entry is a string, so [find] never returns an entry
    that is [undefined]. *)
Lemma find_not_undefined (startURL altStartURL : string)
      (cacheContents : list JSValue) :
  not_undefined
    match find (fun req => strict_eq_string startURL req
                           || strict_eq_string altStartURL req)
               cacheContents with
    | Some req => req
    | None => JSUndefined
    end
  = existsb (fun req => strict_eq_string startURL req
                        || strict_eq_string altStartURL req) cacheContents.
Proof.
  induction cacheContents as [|req l IH]; [reflexivity|].
  cbn [find existsb].
  destruct (strict_eq_string startURL req || strict_eq_string altStartURL req)
    eqn:Heq; [|exact IH].
  destruct req; try reflexivity. discriminate Heq.
Qed.

(** With a passing guard, a string [URL] and a string [start_url.raw] that
    [url.resolve] resolves, the audit answers whether the cache lists the
    resolved start URL or that URL after [strip_utm]. *)
Lemma audit_cached (artifacts : Artifacts) (from to startURL : string)
      (cacheContents : list JSValue) :
  complete artifacts = true ->
  URL artifacts = JSString from ->
  get (get (get (Manifest artifacts) "value") "start_url") "raw"
    = JSString to ->
  CacheContents artifacts = JSArray cacheContents ->
  url_resolve from to = Some startURL ->
  audit artifacts
  = RawValue
      (existsb (fun req =>
                  strict_eq_string startURL req
                  || strict_eq_string (strip_utm startURL) req)
               cacheContents).
Proof.
  intros Hc Hu Hr Ha Hres. unfold CacheStartUrl.audit.
  rewrite Hc, Hu, Hr, Ha, Hres. cbn [negb]. f_equal.
  apply find_not_undefined.
Qed.

(** The audit raises exactly when the guard passes and [URL] or
    [start_url.raw] is not a string. *)
Lemma audit_raises (artifacts : Artifacts) :
  audit artifacts = TypeError <->
  complete artifacts = true /\
  ~ (exists from to,
       URL artifacts = JSString from /\
       get (get (get (Manifest artifacts) "value") "start_url") "raw"
         = JSString to).
Proof.
  unfold CacheStartUrl.audit.
  destruct (complete artifacts); cbn [negb].
  - destruct (URL artifacts) as [| | | |from| |];
      try (split; [intros _; split; [reflexivity|];
                   intros (f & t & Hf & _); discriminate Hf
                  | reflexivity]).
    destruct (get _ "raw") as [| | | |to| |];
      try (split; [intros _; split; [reflexivity|];
                   intros (f & t & _ & Ht); discriminate Ht
                  | reflexivity]).
    destruct (url_resolve from to);
      (split; [discriminate|]; intros [_ H]; exfalso; apply H; eauto).
  - split; [discriminate | intros [H _]; discriminate H].
Qed.

End CacheStartUrlAudit.

(** C10 does not hold on the code: for the manifest of a page that declares
    no start URL the parsed [start_url] node is present and its [raw] is
    [undefined]; the guard passes and [url.resolve] raises, instead of the
    audit returning [rawValue: false]. *)
Theorem audit_raises_without_raw_start_url :
  forall url_resolve,
    CacheStartUrl.complete
      (CacheStartUrl.mkArtifacts
         (CacheStartUrl.manifest_with CacheStartUrl.JSUndefined)
         (CacheStartUrl.JSArray
            [CacheStartUrl.JSString "https://example.com/"])
         (CacheStartUrl.JSString "https://example.com"))
    = true /\
    CacheStartUrl.audit url_resolve
      (CacheStartUrl.mkArtifacts
         (CacheStartUrl.manifest_with CacheStartUrl.JSUndefined)
         (CacheStartUrl.JSArray
            [CacheStartUrl.JSString "https://example.com/"])
         (CacheStartUrl.JSString "https://example.com"))
    = CacheStartUrl.TypeError.
Proof.
  intros url_resolve. split; reflexivity.
Qed.

(** With a start URL carrying a [utm_] parameter, the audit finds the
    stripped URL in the cache. *)
Example audit_handles_utm :
  CacheStartUrl.strip_utm "https://example.com/?utm_source=http203"
    = "https://example.com/"%string /\
  CacheStartUrl.audit CacheStartUrl.resolve_absolute
    (CacheStartUrl.mkArtifacts
       (CacheStartUrl.manifest_with
          (CacheStartUrl.JSString "https://example.com/?utm_source=http203"))
       (CacheStartUrl.JSArray
          [CacheStartUrl.JSString "https://another.example.com/";
           CacheStartUrl.JSString "https://example.com/"])
       (CacheStartUrl.JSString "https://example.com"))
  = CacheStartUrl.RawValue true.
Proof.
  split; reflexivity.
Qed.

(** ** Further properties of the time-to-interactive audit *)

Section SearchOutcomes.

Variable endOfTraceTime : Z.
Variable getRiskToResponsiveness : Z -> Z -> list TTI.Latency.t.

Import TTI.

Local Abbreviation body := (TTI.body endOfTraceTime getRiskToResponsiveness).
Local Abbreviation while :=
  (TTI.while endOfTraceTime getRiskToResponsiveness).
Local Abbreviation search :=
  (TTI.search endOfTraceTime getRiskToResponsiveness).
Local Abbreviation remaining := (TTI.remaining endOfTraceTime).
Local Abbreviation answer :=
  (fun start => find at_percentile
                     (getRiskToResponsiveness start (start + 500))).

Ltac body_cases_of s :=
  let Hgt := fresh "Hgt" in
  let Hle := fresh "Hle" in
  let Hnone := fresh "Hnone" in
  let Hsome := fresh "Hsome" in
  let Hb := fresh "Hb" in
  let est := fresh "est" in
  destruct (body_cases endOfTraceTime getRiskToResponsiveness s)
    as [[Hgt Hb]|[(Hle & Hnone & Hb)|(Hle & est & Hsome & Hb)]];
  rewrite Hb; cbn [startTime currentLatency foundLatencies queried
                   iterations exit_state].

(** A loop that throws has just queried a window for which the estimator's
    answer has no entry at the percentile. *)
Lemma while_thrown_cause (fuel : nat) (s0 s : Loop) :
  while fuel s0 = Some (Thrown s) ->
  exists earlier w,
    queried s = earlier ++ [w] /\
    snd w = fst w + 500 /\
    find at_percentile (getRiskToResponsiveness (fst w) (snd w)) = None.
Proof.
  intros Hrun.
  apply (while_rule endOfTraceTime getRiskToResponsiveness
           (fun _ => True)
           (fun e =>
              match e with
              | Thrown s =>
                  exists earlier w,
                    queried s = earlier ++ [w] /\
                    snd w = fst w + 500 /\
                    find at_percentile
                         (getRiskToResponsiveness (fst w) (snd w)) = None
              | _ => True
              end)) in Hrun; [exact Hrun| | |]; try exact I.
  - intros s' _ _. body_cases_of s'; try exact I.
    exists (queried s'), (startTime s' + 50, startTime s' + 50 + 500).
    repeat split. exact Hnone.
  - intros; exact I.
Qed.

(** The loop finds the first quiet window: from a loop head that goes on,
    when the next [k] windows have estimates above the threshold and the one
    after them fits the trace and has an estimate at most the threshold, the
    loop ends on that window. *)
Lemma while_finds (k : nat) :
  forall (fuel : nat) (s : Loop) (quiet : Latency.t),
    continue s = true ->
    (remaining s <= fuel)%nat ->
    startTime s + 50 * Z.of_nat (S k) + 500 <= endOfTraceTime ->
    (forall j, (j < k)%nat ->
       exists est,
         answer (startTime s + 50 * Z.of_nat (S j)) = Some est /\
         Latency.time est > threshold) ->
    answer (startTime s + 50 * Z.of_nat (S k)) = Some quiet ->
    Latency.time quiet <= threshold ->
    exists s',
      while fuel s = Some (Done s') /\
      startTime s' = startTime s + 50 * Z.of_nat (S k) /\
      currentLatency s' = Fin (Latency.time quiet) /\
      List.length (foundLatencies s')
        = (List.length (foundLatencies s) + S k)%nat.
Proof.
  induction k as [|k IH]; intros fuel s quiet Hc Hfuel Hfit Hbusy Hq Hle.
  - destruct fuel as [|fuel]; [unfold TTI.remaining in Hfuel; lia|].
    cbn [TTI.while]. rewrite Hc.
    destruct (body_cases endOfTraceTime getRiskToResponsiveness s)
      as [[Hgt Hb]|[(_ & Hnone & Hb)|(_ & est & Hsome & Hb)]]; rewrite Hb.
    + lia.
    + replace (startTime s + 50 * Z.of_nat 1) with (startTime s + 50) in Hq
        by lia.
      congruence.
    + replace (startTime s + 50 * Z.of_nat 1) with (startTime s + 50) in Hq
        by lia.
      rewrite Hq in Hsome. injection Hsome as <-.
      eexists. split.
      * destruct fuel; cbn [TTI.while]; unfold continue;
          cbn [currentLatency num_gt];
          destruct (Z.gtb_spec (Latency.time quiet) threshold);
          try lia; reflexivity.
      * cbn [startTime currentLatency foundLatencies].
        rewrite length_app. cbn [List.length]. repeat split; lia.
  - destruct fuel as [|fuel]; [unfold TTI.remaining in Hfuel; lia|].
    cbn [TTI.while]. rewrite Hc.
    destruct (Hbusy 0%nat) as (est0 & Hest0 & Habove); [lia|].
    replace (startTime s + 50 * Z.of_nat 1) with (startTime s + 50) in Hest0
      by lia.
    destruct (body_cases endOfTraceTime getRiskToResponsiveness s)
      as [[Hgt Hb]|[(_ & Hnone & Hb)|(_ & est & Hsome & Hb)]].
    + lia.
    + congruence.
    + rewrite Hest0 in Hsome. injection Hsome as <-.
      pose proof (remaining_next endOfTraceTime getRiskToResponsiveness
                    s _ Hb) as Hrem.
      rewrite Hb.
      match goal with
      | |- exists s', while fuel ?s1 = _ /\ _ =>
          destruct (IH fuel s1 quiet) as (s' & Hrun & Hs & Hl & Hlen)
      end.
      * unfold continue. cbn [currentLatency num_gt].
        destruct (Z.gtb_spec (Latency.time est0) threshold);
          [reflexivity | lia].
      * lia.
      * cbn [startTime]. lia.
      * intros j Hj. cbn [startTime].
        destruct (Hbusy (S j)) as (est & Hest & Hgt); [lia|].
        exists est. split; [|exact Hgt].
        replace (startTime s + 50 + 50 * Z.of_nat (S j))
          with (startTime s + 50 * Z.of_nat (S (S j))) by lia.
        exact Hest.
      * cbn [startTime].
        replace (startTime s + 50 + 50 * Z.of_nat (S k))
          with (startTime s + 50 * Z.of_nat (S (S k))) by lia.
        exact Hq.
      * exact Hle.
      * exists s'. split; [exact Hrun|]. cbn [startTime foundLatencies] in *.
        rewrite length_app in Hlen. cbn [List.length] in Hlen.
        repeat split; try assumption; lia.
Qed.

(** When every window that fits the trace has an estimate above the
    threshold, the loop leaves through the bounds check, after one query per
    window that fits. *)
Lemma while_exhausts (startTime0 : Z) (fuel : nat) (e : Exit) :
  (forall start, start + 500 <= endOfTraceTime ->
     exists est, answer start = Some est /\ Latency.time est > threshold) ->
  while fuel (init startTime0) = Some e ->
  exists s,
    e = Exhausted s /\
    List.length (queried s)
      = Z.to_nat ((endOfTraceTime - startTime0 - 500) / 50).
Proof.
  intros Hbusy Hrun.
  apply (while_rule endOfTraceTime getRiskToResponsiveness
           (fun s =>
              startTime s = startTime0 + 50 * Z.of_nat (iterations s) /\
              List.length (queried s) = iterations s /\
              (iterations s = 0%nat \/ startTime s + 500 <= endOfTraceTime) /\
              continue s = true)
           (fun e =>
              exists s,
                e = Exhausted s /\
                List.length (queried s)
                  = Z.to_nat ((endOfTraceTime - startTime0 - 500) / 50)))
    in Hrun; [exact Hrun| | |].
  - intros s (Hs & Hl & Hfit & Hc) _.
    destruct (body_cases endOfTraceTime getRiskToResponsiveness s)
      as [[Hgt Hb]|[(Hle & Hnone & Hb)|(Hle & est & Hsome & Hb)]];
      rewrite Hb.
    + eexists. split; [reflexivity|]. cbn [queried]. rewrite Hl.
      apply Nat2Z.inj. rewrite ZifyInst.of_nat_to_nat_eq.
      Z.to_euclidean_division_equations. lia.
    + destruct (Hbusy (startTime s + 50)) as (est & Hest & _); [lia|].
      congruence.
    + cbn [startTime currentLatency queried iterations].
      rewrite length_app. cbn [List.length]. repeat split; try lia.
      destruct (Hbusy (startTime s + 50)) as (est' & Hest & Habove); [lia|].
      rewrite Hest in Hsome. injection Hsome as <-.
      unfold continue. cbn [currentLatency num_gt].
      destruct (Z.gtb_spec (Latency.time est') threshold); [reflexivity|lia].
  - intros s (_ & _ & _ & Hc) Hc'. congruence.
  - cbn. repeat split; lia.
Qed.

End SearchOutcomes.











(** ** Further properties of the cache-start-url audit *)

Module RegexFacts.

Import CacheStartUrl.

Lemma length_append (a b : string) :
  String.length (a ++ b) = (String.length a + String.length b)%nat.
Proof.
  induction a as [|c a IH]; [reflexivity|]. cbn. now rewrite IH.
Qed.

Lemma append_empty_r (a : string) : (a ++ "")%string = a.
Proof.
  induction a as [|c a IH]; [reflexivity|]. cbn. now rewrite IH.
Qed.

Lemma rmatch_star (r1 : regex) (s : string) (k : string -> option string) :
  rmatch (Star r1) s k = star_loop r1 k (S (String.length s)) s.
Proof. reflexivity. Qed.

Lemma rmatch_seq (r1 r2 : regex) (s : string) (k : string -> option string) :
  rmatch (Seq r1 r2) s k = rmatch r1 s (fun s1 => rmatch r2 s1 k).
Proof. reflexivity. Qed.

(** A literal does not match where the input does not begin with it. *)
Lemma rmatch_literal_miss (p : string) (r : regex) :
  forall s k, starts_with p s = false -> rmatch (literal p r) s k = None.
Proof.
  induction p as [|c p IH]; intros s k Hs; [discriminate|].
  cbn [literal]. rewrite rmatch_seq. cbn [rmatch].
  destruct s as [|x s]; [reflexivity|]. cbn [starts_with] in Hs.
  destruct (Ascii.eqb x c); [|reflexivity]. now apply IH.
Qed.

(** A literal consumes itself. *)
Lemma rmatch_literal_hit (p : string) (r : regex) :
  forall s k, rmatch (literal p r) (p ++ s) k = rmatch r s k.
Proof.
  induction p as [|c p IH]; intros s k; [reflexivity|].
  cbn [literal append]. rewrite rmatch_seq. cbn [rmatch].
  rewrite Ascii.eqb_refl. apply IH.
Qed.

Lemma rmatch_char_hit (c : ascii) (s : string)
      (k : string -> option string) :
  rmatch (Char c) (String c s) k = k s.
Proof. cbn [rmatch]. now rewrite Ascii.eqb_refl. Qed.

Lemma shorter (x : ascii) (s : string) :
  (String.length s <? String.length (String x s))%nat = true.
Proof. apply Nat.ltb_lt. cbn. lia. Qed.

(** The greedy run of characters other than [c] goes through a prefix
    without [c] and hands over where [c], or the end of the input, stops
    it. *)
Lemma star_loop_not_char (c : ascii) (k : string -> option string)
      (rest : string) :
  forall x n y,
    lacks c x = true ->
    (String.length x < n)%nat ->
    (y = EmptyString \/ exists y', y = String c y') ->
    k y = Some rest ->
    star_loop (NotChar c) k n (x ++ y) = Some rest.
Proof.
  induction x as [|a x IH]; intros n y Hx Hn Hy Hk.
  - destruct n as [|n]; [cbn in Hn; lia|]. cbn [append star_loop rmatch].
    destruct Hy as [->|[y' ->]]; [exact Hk|].
    rewrite Ascii.eqb_refl. exact Hk.
  - destruct n as [|n]; [cbn in Hn; lia|].
    cbn [lacks] in Hx. apply andb_prop in Hx. destruct Hx as [Ha Hx].
    cbn [append star_loop rmatch].
    destruct (Ascii.eqb a c); [discriminate|].
    rewrite shorter. fold (star_loop (NotChar c) k).
    rewrite (IH n y Hx); [reflexivity| cbn in Hn; lia | exact Hy | exact Hk].
Qed.

(** The same for the run of [([^c]|$)]: at the end of the input the empty
    match of [$] is rejected and the run stops. *)
Lemma star_loop_not_char_or_end (c : ascii) (k : string -> option string)
      (rest : string) :
  forall x n y,
    lacks c x = true ->
    (String.length x < n)%nat ->
    (y = EmptyString \/ exists y', y = String c y') ->
    k y = Some rest ->
    star_loop (Alt (NotChar c) EndOfInput) k n (x ++ y) = Some rest.
Proof.
  induction x as [|a x IH]; intros n y Hx Hn Hy Hk.
  - destruct n as [|n]; [cbn in Hn; lia|]. cbn [append star_loop rmatch].
    destruct Hy as [->|[y' ->]].
    + cbn. exact Hk.
    + rewrite Ascii.eqb_refl. exact Hk.
  - destruct n as [|n]; [cbn in Hn; lia|].
    cbn [lacks] in Hx. apply andb_prop in Hx. destruct Hx as [Ha Hx].
    cbn [append star_loop rmatch].
    destruct (Ascii.eqb a c); [discriminate|].
    rewrite shorter. fold (star_loop (Alt (NotChar c) EndOfInput) k).
    rewrite (IH n y Hx); [reflexivity| cbn in Hn; lia | exact Hy | exact Hk].
Qed.

Lemma query_tail_cases (tail : string) :
  query_tail tail = true ->
  tail = EmptyString \/ exists rest, tail = String "&" rest.
Proof.
  destruct tail as [|c rest]; [now left|]. cbn. intros Hc.
  apply Ascii.eqb_eq in Hc. subst c. right. eauto.
Qed.

(** The first regular expression matches a whole [?utm_key=value]. *)
Lemma utm_regex_match (key value tail : string) :
  lacks "=" key = true -> lacks "&" value = true ->
  query_tail tail = true ->
  rmatch utm_regex ("?utm_" ++ key ++ "=" ++ value ++ tail) Some = Some tail.
Proof.
  intros Hkey Hvalue Htail. unfold utm_regex.
  rewrite rmatch_literal_hit, rmatch_seq, rmatch_star.
  apply star_loop_not_char.
  - exact Hkey.
  - rewrite length_append. lia.
  - right. eexists. reflexivity.
  - cbn [append]. rewrite rmatch_seq, rmatch_char_hit, rmatch_star.
    apply star_loop_not_char_or_end.
    + exact Hvalue.
    + rewrite length_append. lia.
    + now apply query_tail_cases.
    + reflexivity.
Qed.

(** A regular expression that begins with a question mark replaces nothing
    in front of the first question mark of the input. *)
Lemma replace_first_skips (r : regex) (by_ : string) :
  (forall x s k, Ascii.eqb x "?" = false -> rmatch r (String x s) k = None) ->
  forall base s,
    lacks "?" base = true ->
    replace_first r by_ (base ++ s)
    = match replace_first r by_ s with
      | Some s' => Some (base ++ s')%string
      | None => None
      end.
Proof.
  intros Hr. induction base as [|c base IH]; intros s Hbase.
  - cbn [append]. now destruct (replace_first _ _ s).
  - cbn [lacks] in Hbase. apply andb_prop in Hbase.
    destruct Hbase as [Hc Hbase]. apply negb_true_iff in Hc.
    cbn [append replace_first]. rewrite (Hr c _ _ Hc).
    rewrite (IH s Hbase). now destruct (replace_first _ _ s).
Qed.

Lemma utm_regex_needs_question_mark (x : ascii) (s : string)
      (k : string -> option string) :
  Ascii.eqb x "?" = false -> rmatch utm_regex (String x s) k = None.
Proof.
  intros Hx. apply rmatch_literal_miss. cbn [starts_with]. now rewrite Hx.
Qed.

Lemma replace_first_here (r : regex) (by_ s rest : string) :
  rmatch r s Some = Some rest ->
  replace_first r by_ s = Some (by_ ++ rest)%string.
Proof.
  intros H. destruct s; cbn [replace_first]; now rewrite H.
Qed.

Lemma replace_unchanged (r : regex) (by_ s : string) :
  replace_first r by_ s = None -> replace r by_ s = s.
Proof. unfold replace. now intros ->. Qed.

Lemma replace_changed (r : regex) (by_ s s' : string) :
  replace_first r by_ s = Some s' -> replace r by_ s = s'.
Proof. unfold replace. now intros ->. Qed.

Lemma utm_absent (s : string) :
  occurs "?utm_" s = false -> replace_first utm_regex "" s = None.
Proof.
  induction s as [|c s IH]; intros Hs; [reflexivity|].
  cbn [occurs] in Hs. apply orb_false_iff in Hs. destruct Hs as [Hhere Hs].
  cbn [replace_first]. unfold utm_regex at 1.
  rewrite (rmatch_literal_miss "?utm_" _ _ _ Hhere).
  now rewrite (IH Hs).
Qed.

Lemma question_mark_absent (s : string) :
  ends_with "?" s = false ->
  replace_first trailing_question_mark "" s = None.
Proof.
  induction s as [|c s IH]; intros Hs; [reflexivity|].
  cbn [replace_first]. unfold trailing_question_mark at 1.
  rewrite rmatch_seq. cbn [rmatch].
  destruct s as [|d s].
  - cbn [ends_with] in Hs. rewrite Hs. reflexivity.
  - cbn [ends_with] in Hs. rewrite (IH Hs).
    now destruct (Ascii.eqb c "?").
Qed.

Lemma question_mark_present (t : string) :
  replace_first trailing_question_mark "" (t ++ "?") = Some t.
Proof.
  induction t as [|c t IH]; [reflexivity|].
  cbn [append replace_first]. unfold trailing_question_mark at 1.
  rewrite rmatch_seq. cbn [rmatch].
  assert (exists d u, (t ++ "?")%string = String d u) as (d & u & Hdu).
  { destruct t; cbn; eauto. }
  rewrite IH. rewrite Hdu. now destruct (Ascii.eqb c "?").
Qed.

Lemma ends_with_append (c : ascii) (base tail : string) :
  lacks c base = true -> ends_with c tail = false ->
  ends_with c (base ++ tail) = false.
Proof.
  induction base as [|x base IH]; intros Hbase Htail; [exact Htail|].
  cbn [lacks] in Hbase. apply andb_prop in Hbase.
  destruct Hbase as [Hx Hbase]. cbn [append ends_with].
  specialize (IH Hbase Htail).
  destruct (base ++ tail)%string; [|exact IH].
  now destruct (Ascii.eqb x c).
Qed.

(** The two replacements on a URL whose query opens with a [utm_]
    parameter. *)
Lemma strip_utm_parameter (base key value tail : string) :
  lacks "?" base = true ->
  lacks "=" key = true ->
  lacks "&" value = true ->
  query_tail tail = true ->
  ends_with "?" tail = false ->
  strip_utm (base ++ "?utm_" ++ key ++ "=" ++ value ++ tail)
  = (base ++ tail)%string.
Proof.
  intros Hbase Hkey Hvalue Htail Hend. unfold strip_utm.
  rewrite (replace_changed utm_regex "" _ (base ++ tail)).
  - apply replace_unchanged, question_mark_absent.
    now apply ends_with_append.
  - rewrite (replace_first_skips utm_regex ""
               utm_regex_needs_question_mark base _ Hbase).
    now rewrite (replace_first_here _ "" _ tail
                   (utm_regex_match key value tail Hkey Hvalue Htail)).
Qed.

End RegexFacts.

(** X6: a URL in which [?utm_] does not occur keeps its query: the
    alternative start URL is the start URL itself, except that a question
    mark at the very end is dropped. *)
Theorem strip_utm_without_utm :
  forall s,
    CacheStartUrl.occurs "?utm_" s = false ->
    (CacheStartUrl.ends_with "?" s = false -> CacheStartUrl.strip_utm s = s) /\
    (forall t, s = (t ++ "?")%string -> CacheStartUrl.strip_utm s = t).
Proof.
  intros s Hs. unfold CacheStartUrl.strip_utm.
  rewrite (RegexFacts.replace_unchanged _ _ _ (RegexFacts.utm_absent s Hs)).
  split.
  - intros Hend. apply RegexFacts.replace_unchanged.
    now apply RegexFacts.question_mark_absent.
  - intros t ->. apply RegexFacts.replace_changed.
    apply RegexFacts.question_mark_present.
Qed.

(** X6 on a URL whose [utm_] parameter is not the first one, and on a URL
    with an empty query. *)
Lemma strip_utm_without_utm_witness :
  (CacheStartUrl.ends_with "?" "https://example.com/?a=1&utm_source=x" = false ->
   CacheStartUrl.strip_utm "https://example.com/?a=1&utm_source=x"
   = "https://example.com/?a=1&utm_source=x"%string) /\
  (forall t, "https://example.com/?a=1&utm_source=x"%string = (t ++ "?")%string ->
     CacheStartUrl.strip_utm "https://example.com/?a=1&utm_source=x" = t).
Proof.
  apply (strip_utm_without_utm "https://example.com/?a=1&utm_source=x").
  reflexivity.
Defined.

(** X7: a [utm_] parameter that opens the query is removed with its value:
    for a URL [base ?utm_ key = value tail], where [base] has no question
    mark, [key] no [=], [value] no [&], and [tail] is empty or begins with
    [&] and does not end with a question mark, the alternative start URL is
    [base tail].  The question mark goes with the parameter, so parameters
    that follow are left behind their [&]. *)
Theorem strip_utm_removes_parameter :
  forall base key value tail,
    CacheStartUrl.lacks "?" base = true ->
    CacheStartUrl.lacks "=" key = true ->
    CacheStartUrl.lacks "&" value = true ->
    CacheStartUrl.query_tail tail = true ->
    CacheStartUrl.ends_with "?" tail = false ->
    CacheStartUrl.strip_utm (base ++ "?utm_" ++ key ++ "=" ++ value ++ tail)
    = (base ++ tail)%string.
Proof.
  exact RegexFacts.strip_utm_parameter.
Qed.

(** X7 on a start URL with a second parameter. *)
Lemma strip_utm_removes_parameter_witness :
  CacheStartUrl.strip_utm
    ("https://example.com/" ++ "?utm_" ++ "source" ++ "=" ++ "http203"
     ++ "&a=b")
  = ("https://example.com/" ++ "&a=b")%string.
Proof.
  apply (strip_utm_removes_parameter "https://example.com/" "source"
           "http203" "&a=b"); reflexivity.
Defined.

(** X8: a start URL that resolves to [base ?utm_ key = value] is found in a
    cache that lists [base]. *)
Theorem utm_start_url_found :
  forall url_resolve artifacts from to cacheContents base key value,
    CacheStartUrl.complete artifacts = true ->
    CacheStartUrl.URL artifacts = CacheStartUrl.JSString from ->
    CacheStartUrl.get
      (CacheStartUrl.get
         (CacheStartUrl.get (CacheStartUrl.Manifest artifacts) "value")
         "start_url") "raw"
      = CacheStartUrl.JSString to ->
    CacheStartUrl.CacheContents artifacts
      = CacheStartUrl.JSArray cacheContents ->
    url_resolve from to
      = Some (base ++ "?utm_" ++ key ++ "=" ++ value)%string ->
    CacheStartUrl.lacks "?" base = true ->
    CacheStartUrl.lacks "=" key = true ->
    CacheStartUrl.lacks "&" value = true ->
    In (CacheStartUrl.JSString base) cacheContents ->
    CacheStartUrl.audit url_resolve artifacts = CacheStartUrl.RawValue true.
Proof.
  intros url_resolve artifacts from to l base key value
         Hc Hu Hr Ha Hres Hbase Hkey Hvalue Hin.
  rewrite (audit_cached url_resolve artifacts from to _ l Hc Hu Hr Ha Hres).
  f_equal. apply existsb_exists. exists (CacheStartUrl.JSString base).
  split; [exact Hin|]. apply orb_true_iff. right.
  pose proof (RegexFacts.strip_utm_parameter base key value ""
                Hbase Hkey Hvalue eq_refl eq_refl) as Hstrip.
  rewrite !RegexFacts.append_empty_r in Hstrip.
  cbn [CacheStartUrl.strict_eq_string]. rewrite Hstrip.
  apply String.eqb_refl.
Qed.

(** X8 on a cache that lists the start URL without its parameter. *)
Lemma utm_start_url_found_witness :
  CacheStartUrl.audit CacheStartUrl.resolve_absolute
    (CacheStartUrl.mkArtifacts
       (CacheStartUrl.manifest_with
          (CacheStartUrl.JSString "https://example.com/?utm_source=http203"))
       (CacheStartUrl.JSArray
          [CacheStartUrl.JSString "https://another.example.com/";
           CacheStartUrl.JSString "https://example.com/"])
       (CacheStartUrl.JSString "https://example.com"))
  = CacheStartUrl.RawValue true.
Proof.
  apply (utm_start_url_found CacheStartUrl.resolve_absolute _
           "https://example.com" "https://example.com/?utm_source=http203"
           [CacheStartUrl.JSString "https://another.example.com/";
            CacheStartUrl.JSString "https://example.com/"]
           "https://example.com/" "source" "http203");
    try reflexivity.
  simpl. right. left. reflexivity.
Defined.



Lemma strict_eq_string_spec (s : string) (v : CacheStartUrl.JSValue) :
  CacheStartUrl.strict_eq_string s v = true <-> v = CacheStartUrl.JSString s.
Proof.
  destruct v; cbn; try (split; discriminate).
  rewrite String.eqb_eq. split; [now intros -> | now intros [= ->]].
Qed.

(** X10: with a passing guard, a string [URL] and a string [start_url.raw]
    that [url.resolve] resolves to [startURL], the audit answers [true]
    exactly when [startURL], or that URL after the two replacements, is an
    entry of the cache contents, as a string and character for character;
    otherwise it answers [false]. *)
Theorem cache_hit_iff_listed :
  forall url_resolve artifacts from to startURL cacheContents,
    CacheStartUrl.complete artifacts = true ->
    CacheStartUrl.URL artifacts = CacheStartUrl.JSString from ->
    CacheStartUrl.get
      (CacheStartUrl.get
         (CacheStartUrl.get (CacheStartUrl.Manifest artifacts) "value")
         "start_url") "raw"
      = CacheStartUrl.JSString to ->
    CacheStartUrl.CacheContents artifacts
      = CacheStartUrl.JSArray cacheContents ->
    url_resolve from to = Some startURL ->
    let listed :=
      In (CacheStartUrl.JSString startURL) cacheContents \/
      In (CacheStartUrl.JSString (CacheStartUrl.strip_utm startURL))
         cacheContents in
    (CacheStartUrl.audit url_resolve artifacts = CacheStartUrl.RawValue true
     <-> listed) /\
    (CacheStartUrl.audit url_resolve artifacts = CacheStartUrl.RawValue false
     <-> ~ listed).
Proof.
  intros url_resolve artifacts from to startURL l Hc Hu Hr Ha Hres listed.
  rewrite (audit_cached url_resolve artifacts from to startURL l
             Hc Hu Hr Ha Hres).
  assert (existsb
            (fun req =>
               CacheStartUrl.strict_eq_string startURL req
               || CacheStartUrl.strict_eq_string
                    (CacheStartUrl.strip_utm startURL) req) l = true
          <-> listed) as Hiff.
  { rewrite existsb_exists. unfold listed. split.
    - intros (req & Hin & Heq). apply orb_true_iff in Heq.
      destruct Heq as [Heq|Heq]; apply strict_eq_string_spec in Heq;
        subst req; [now left | now right].
    - intros [Hin|Hin]; eexists; (split; [exact Hin|]);
        apply orb_true_iff; [left | right]; now apply strict_eq_string_spec. }
  destruct (existsb _ l).
  - split; split; try intuition congruence.
  - split; split; try intuition congruence.
Qed.

(** X10 on a cache that lists the start URL itself. *)
Lemma cache_hit_iff_listed_witness :
  let artifacts :=
    CacheStartUrl.mkArtifacts
      (CacheStartUrl.manifest_with (CacheStartUrl.JSString "https://example.com/"))
      (CacheStartUrl.JSArray [CacheStartUrl.JSString "https://example.com/"])
      (CacheStartUrl.JSString "https://example.com") in
  let listed :=
    In (CacheStartUrl.JSString "https://example.com/")
       [CacheStartUrl.JSString "https://example.com/"] \/
    In (CacheStartUrl.JSString
          (CacheStartUrl.strip_utm "https://example.com/"))
       [CacheStartUrl.JSString "https://example.com/"] in
  (CacheStartUrl.audit CacheStartUrl.resolve_absolute artifacts
   = CacheStartUrl.RawValue true <-> listed) /\
  (CacheStartUrl.audit CacheStartUrl.resolve_absolute artifacts
   = CacheStartUrl.RawValue false <-> ~ listed).
Proof.
  apply (cache_hit_iff_listed CacheStartUrl.resolve_absolute
           (CacheStartUrl.mkArtifacts
              (CacheStartUrl.manifest_with
                 (CacheStartUrl.JSString "https://example.com/"))
              (CacheStartUrl.JSArray
                 [CacheStartUrl.JSString "https://example.com/"])
              (CacheStartUrl.JSString "https://example.com"))
           "https://example.com" "https://example.com/"
           "https://example.com/"
           [CacheStartUrl.JSString "https://example.com/"]);
    reflexivity.
Defined.


(** X12: the answer depends on which entries the cache contents have, not
    on their order or number. *)
Theorem cache_order_irrelevant :
  forall url_resolve manifest url cacheContents cacheContents',
    (forall req, In req cacheContents <-> In req cacheContents') ->
    CacheStartUrl.audit url_resolve
      (CacheStartUrl.mkArtifacts manifest
         (CacheStartUrl.JSArray cacheContents) url)
    = CacheStartUrl.audit url_resolve
        (CacheStartUrl.mkArtifacts manifest
           (CacheStartUrl.JSArray cacheContents') url).
Proof.
  intros url_resolve manifest url l l' Hsame.
  unfold CacheStartUrl.audit, CacheStartUrl.complete.
  cbn [CacheStartUrl.Manifest CacheStartUrl.CacheContents CacheStartUrl.URL
       CacheStartUrl.isArray].
  destruct (negb _); [reflexivity|].
  destruct url; try reflexivity.
  destruct (CacheStartUrl.get _ "raw"); try reflexivity.
  destruct (url_resolve _ _); [|reflexivity].
  rewrite !find_not_undefined. f_equal.
  apply eq_true_iff_eq. rewrite !existsb_exists.
  split; intros (req & Hin & Heq); exists req; (split; [|exact Heq]);
    now apply Hsame.
Qed.

(** X12 on a cache listed in two orders, once with a repeated entry. *)
Lemma cache_order_irrelevant_witness :
  CacheStartUrl.audit CacheStartUrl.resolve_absolute
    (CacheStartUrl.mkArtifacts
       (CacheStartUrl.manifest_with (CacheStartUrl.JSString "https://example.com/"))
       (CacheStartUrl.JSArray
          [CacheStartUrl.JSString "https://another.example.com/";
           CacheStartUrl.JSString "https://example.com/"])
       (CacheStartUrl.JSString "https://example.com"))
  = CacheStartUrl.audit CacheStartUrl.resolve_absolute
      (CacheStartUrl.mkArtifacts
         (CacheStartUrl.manifest_with (CacheStartUrl.JSString "https://example.com/"))
         (CacheStartUrl.JSArray
            [CacheStartUrl.JSString "https://example.com/";
             CacheStartUrl.JSString "https://another.example.com/";
             CacheStartUrl.JSString "https://example.com/"])
         (CacheStartUrl.JSString "https://example.com")).
Proof.
  apply (cache_order_irrelevant CacheStartUrl.resolve_absolute).
  intros req. simpl. tauto.
Defined.
